(** * Daily Task Tick: the task store of [src/App.js]

    A shallow embedding of the [DailyTaskTick] component: its state hooks,
    its event handlers, the three [localStorage] entries it mirrors its
    state to, the events its rendered markup can deliver, and the rows
    that React leaves on the page when two tasks share a key.

    Conventions.
    - A JavaScript string is a [string]; one character stands for one
      code unit, and [===] on strings is [String.eqb].
    - [Date.now()], [new Date().toISOString()], the local calendar fields
      of [new Date()] and the answer of [window.confirm] are readings of
      the environment: the handler that takes one receives it as an
      argument.
    - A [localStorage] entry written by [JSON.stringify] is represented by
      the value [JSON.parse] gives back for it; such a text is never the
      empty string, so it is truthy exactly when the entry is present.
      Entries that are not the JSON text of a list are outside the model.
    - A handler is a closure of the render that created it.  What it
      reads from that render ([completions], [editingTaskTitle], the
      [task] of its row) is an argument named [render] or carried by the
      row; what its updaters receive as [prev] is the current state. *)

From Stdlib Require Import List String Ascii ZArith Bool Lia.
From Stdlib Require Import DecimalString.
From Stdlib Require DecimalPos DecimalZ.
Import ListNotations.
Local Open Scope string_scope.
Local Open Scope list_scope.

(** ** Strings as the source uses them *)

(** [String(n)] and [n.toString()] for an integral number. *)
Definition toString (n : Z) : string :=
  NilZero.string_of_int (Z.to_int n).

(** [s.padStart(2, '0')]. *)
Definition padStart2 (s : string) : string :=
  match String.length s with
  | 0 => "00" ++ s
  | 1 => "0" ++ s
  | _ => s
  end.

(** The code units below 256 that [String.prototype.trim] strips:
    TAB, LF, VT, FF, CR, SPACE and NBSP. *)
Definition isWhiteSpace (c : ascii) : bool :=
  match nat_of_ascii c with
  | 9 | 10 | 11 | 12 | 13 | 32 | 160 => true
  | _ => false
  end.

Fixpoint trimStart (s : string) : string :=
  match s with
  | EmptyString => EmptyString
  | String c r => if isWhiteSpace c then trimStart r else s
  end.

Definition reverse (s : string) : string :=
  string_of_list_ascii (rev (list_ascii_of_string s)).

Definition trimEnd (s : string) : string :=
  reverse (trimStart (reverse s)).

(** [s.trim()]. *)
Definition trim (s : string) : string :=
  trimEnd (trimStart s).

(** ** Date oracle (lines 3-10) *)

(** The local calendar fields read off [new Date()]. *)
Record LocalDate := {
  getFullYear : Z;
  getMonth : Z;      (* 0 .. 11 *)
  getDate : Z        (* 1 .. 31 *)
}.

Definition todayLocalISO (d : LocalDate) : string :=
  let y := getFullYear d in
  let m := padStart2 (toString (getMonth d + 1)) in
  let day := padStart2 (toString (getDate d)) in
  toString y ++ "-" ++ m ++ "-" ++ day.

(** ** Data model (lines 12-22) *)

Record Task := {
  id : string;
  title : string;
  createdAt : string;
  archived : bool
}.

Record CompletionRecord := {
  taskId : string;
  date : string
}.

(** [{ ...task, title: t }] *)
Definition with_title (task : Task) (t : string) : Task :=
  {| id := id task; title := t;
     createdAt := createdAt task; archived := archived task |}.

(** ** Component state (lines 25-30) *)

Record DailyTaskTick := {
  tasks : list Task;
  completions : list CompletionRecord;
  newTaskTitle : string;
  editingTaskId : option string;          (* [null] is [None] *)
  editingTaskTitle : string;
  currentLocalISODate : string            (* the ref, fixed at mount *)
}.

(** The state of the first render. *)
Definition initial (today : string) : DailyTaskTick :=
  {| tasks := []; completions := []; newTaskTitle := "";
     editingTaskId := None; editingTaskTitle := "";
     currentLocalISODate := today |}.

(** The state setters; each takes the updater the source passes
    (a constant updater where the source passes a value). *)
Definition setTasks (f : list Task -> list Task) (c : DailyTaskTick) :=
  {| tasks := f (tasks c); completions := completions c;
     newTaskTitle := newTaskTitle c; editingTaskId := editingTaskId c;
     editingTaskTitle := editingTaskTitle c;
     currentLocalISODate := currentLocalISODate c |}.

Definition setCompletions
    (f : list CompletionRecord -> list CompletionRecord) (c : DailyTaskTick) :=
  {| tasks := tasks c; completions := f (completions c);
     newTaskTitle := newTaskTitle c; editingTaskId := editingTaskId c;
     editingTaskTitle := editingTaskTitle c;
     currentLocalISODate := currentLocalISODate c |}.

Definition setNewTaskTitle (v : string) (c : DailyTaskTick) :=
  {| tasks := tasks c; completions := completions c;
     newTaskTitle := v; editingTaskId := editingTaskId c;
     editingTaskTitle := editingTaskTitle c;
     currentLocalISODate := currentLocalISODate c |}.

Definition setEditingTaskId (v : option string) (c : DailyTaskTick) :=
  {| tasks := tasks c; completions := completions c;
     newTaskTitle := newTaskTitle c; editingTaskId := v;
     editingTaskTitle := editingTaskTitle c;
     currentLocalISODate := currentLocalISODate c |}.

Definition setEditingTaskTitle (v : string) (c : DailyTaskTick) :=
  {| tasks := tasks c; completions := completions c;
     newTaskTitle := newTaskTitle c; editingTaskId := editingTaskId c;
     editingTaskTitle := v;
     currentLocalISODate := currentLocalISODate c |}.

(** ** Handlers (lines 62-127)

    Discrete events are flushed one at a time, and every state change
    is rendered before the next event.  The form and the header are
    rendered afresh each time, so their handlers close over the current
    state.  A row's handlers close over the render that last updated the
    row, which for an orphaned row (see below) is an old one. *)

(** [c.taskId === taskId && c.date === currentLocalISODate.current] *)
Definition is_record_of (tid today : string) (c : CompletionRecord) : bool :=
  (taskId c =? tid) && (date c =? today).

(** [completions.some(...)], as line 179-181 computes it for the row of
    [tid] when the state is [c]. *)
Definition isCompletedToday (tid : string) (c : DailyTaskTick) : bool :=
  existsb (is_record_of tid (currentLocalISODate c)) (completions c).

(** Lines 62-74; [now] is [Date.now()], [iso] is
    [new Date().toISOString()]. *)
Definition handleAddTask (now : Z) (iso : string) (c : DailyTaskTick)
  : DailyTaskTick :=
  if trim (newTaskTitle c) =? "" then c
  else
    let newTask :=
      {| id := toString now;
         title := trim (newTaskTitle c);
         createdAt := iso;
         archived := false |} in
    setNewTaskTitle ""
      (setTasks (fun prevTasks => prevTasks ++ [newTask]) c).

(** Lines 76-91.  [isCompleted] is computed from the [completions] of
    the handler's own render (lines 77-79); the updaters work on [prev],
    the completion list of the current state [c] (lines 82-89).  The
    ref is one object for all renders, so both read the date of [c]. *)
Definition handleToggleCompletion (render : DailyTaskTick) (tid : string)
    (c : DailyTaskTick) : DailyTaskTick :=
  let today := currentLocalISODate c in
  let isCompleted := existsb (is_record_of tid today) (completions render) in
  if isCompleted then
    setCompletions
      (fun prev => filter (fun r => negb (is_record_of tid today r)) prev) c
  else
    setCompletions
      (fun prev => prev ++ [{| taskId := tid; date := today |}]) c.

(** Lines 93-98; [confirm] is the answer of [window.confirm]. *)
Definition handleDeleteTask (confirm : bool) (tid : string)
    (c : DailyTaskTick) : DailyTaskTick :=
  if confirm then
    setCompletions
      (fun prev => filter (fun r => negb (taskId r =? tid)) prev)
      (setTasks
         (fun prev => filter (fun task => negb (id task =? tid)) prev) c)
  else c.

(** Lines 100-103. *)
Definition handleEditTask (tid currentTitle : string) (c : DailyTaskTick)
  : DailyTaskTick :=
  setEditingTaskTitle currentTitle (setEditingTaskId (Some tid) c).

(** Lines 105-114.  The buffer tested and stored is the
    [editingTaskTitle] of the handler's own render; the task list
    mapped is [prev], that of the current state [c]. *)
Definition handleSaveEdit (render : DailyTaskTick) (tid : string)
    (c : DailyTaskTick) : DailyTaskTick :=
  if trim (editingTaskTitle render) =? "" then c
  else
    let t := trim (editingTaskTitle render) in
    setEditingTaskTitle ""
      (setEditingTaskId None
         (setTasks
            (fun prev =>
               map (fun task =>
                      if id task =? tid then with_title task t else task)
                   prev)
            c)).

(** Lines 116-119. *)
Definition handleCancelEdit (c : DailyTaskTick) : DailyTaskTick :=
  setEditingTaskTitle "" (setEditingTaskId None c).

(** Lines 121-127. *)
Definition handleResetTodayCompletions (confirm : bool) (c : DailyTaskTick)
  : DailyTaskTick :=
  if confirm then
    setCompletions
      (fun prev =>
         filter (fun r => negb (date r =? currentLocalISODate c)) prev) c
  else c.

(** Lines 129-132. *)
Definition completedTodayCount (c : DailyTaskTick) : nat :=
  List.length
    (filter (fun r => date r =? currentLocalISODate c) (completions c)).

Definition totalTasksCount (c : DailyTaskTick) : nat :=
  List.length (tasks c).

(** ** Persistence (lines 32-60) *)

(** The three [localStorage] entries; [None] is the [null] that
    [getItem] returns for a key never written. *)
Record Storage := {
  dailyTaskTick_tasks : option (list Task);
  dailyTaskTick_completions : option (list CompletionRecord);
  dailyTaskTick_lastCompletionDate : option string
}.

(** A browser profile the application has never run in. *)
Definition freshStorage : Storage :=
  {| dailyTaskTick_tasks := None;
     dailyTaskTick_completions := None;
     dailyTaskTick_lastCompletionDate := None |}.

Definition setItem_tasks (v : list Task) (ls : Storage) : Storage :=
  {| dailyTaskTick_tasks := Some v;
     dailyTaskTick_completions := dailyTaskTick_completions ls;
     dailyTaskTick_lastCompletionDate := dailyTaskTick_lastCompletionDate ls |}.

Definition setItem_completions (v : list CompletionRecord) (ls : Storage)
  : Storage :=
  {| dailyTaskTick_tasks := dailyTaskTick_tasks ls;
     dailyTaskTick_completions := Some v;
     dailyTaskTick_lastCompletionDate := dailyTaskTick_lastCompletionDate ls |}.

Definition setItem_lastCompletionDate (v : string) (ls : Storage) : Storage :=
  {| dailyTaskTick_tasks := dailyTaskTick_tasks ls;
     dailyTaskTick_completions := dailyTaskTick_completions ls;
     dailyTaskTick_lastCompletionDate := Some v |}.

Definition World : Type := DailyTaskTick * Storage.

(** [lastCompletionDate === currentLocalISODate.current]; [null] is
    equal to no string. *)
Definition same_date (lastCompletionDate : option string) (today : string)
  : bool :=
  match lastCompletionDate with
  | Some d => d =? today
  | None => false
  end.

(** The initial-load effect, lines 33-51. *)
Definition loadEffect (c : DailyTaskTick) (ls : Storage) : World :=
  let storedTasks := dailyTaskTick_tasks ls in
  let c1 :=
    match storedTasks with
    | Some l => setTasks (fun _ => l) c
    | None => c
    end in
  let storedCompletions := dailyTaskTick_completions ls in
  let lastCompletionDate := dailyTaskTick_lastCompletionDate ls in
  let '(c2, ls2) :=
    match (if same_date lastCompletionDate (currentLocalISODate c)
           then storedCompletions else None) with
    | Some l => (setCompletions (fun _ => l) c1, ls)
    | None => (setCompletions (fun _ => []) c1, setItem_completions [] ls)
    end in
  (c2, setItem_lastCompletionDate (currentLocalISODate c) ls2).

(** The two write-through effects, lines 54-56 and 58-60, run for the
    render whose state is [c].  An effect whose dependency did not change
    is skipped by React; running it again would store the text already
    there, so the model runs both. *)
Definition saveEffects (c : DailyTaskTick) (ls : Storage) : Storage :=
  setItem_completions (completions c) (setItem_tasks (tasks c) ls).

(** Mounting the component on the calendar day [d]: the first render has
    the initial state, its three effects run in source order, and the
    state set by the load effect is rendered and written through. *)
Definition mount (d : LocalDate) (ls : Storage) : World :=
  let c0 := initial (todayLocalISO d) in
  let '(c1, ls1) := loadEffect c0 ls in
  let ls2 := saveEffects c0 ls1 in
  (c1, saveEffects c1 ls2).

(** ** The page (lines 134-260)

    The form, the header and one [<li key={task.id}>] per task.  A row
    is the [task] it was rendered for together with the render whose
    closures its handlers are. *)
Record Row := {
  row_task : Task;
  row_render : DailyTaskTick
}.

(** [tasks.map((task) => ...)] of the render of [c], lines 178-255. *)
Definition rows (c : DailyTaskTick) : list Row :=
  map (fun task => {| row_task := task; row_render := c |}) (tasks c).

(** [key={task.id}], line 185. *)
Definition key (r : Row) : string := id (row_task r).

(** What the elements of one row deliver. *)
Inductive RowEvent :=
| ChangeCheckbox                          (* line 189 *)
| ChangeEditInput (v : string)            (* line 197 *)
| BlurEditInput                           (* line 198 *)
| KeyDownEditInput (key : string)         (* lines 199-202 *)
| ClickEdit                               (* line 230 *)
| ClickDelete (confirm : bool).           (* line 240 *)

(** What the page delivers: the form, the reset button, a row of the
    task list by position, or a row that React left behind. *)
Inductive Event :=
| ChangeNewTaskTitle (v : string)         (* line 148 *)
| SubmitAdd (now : Z) (iso : string)      (* line 144 *)
| ClickReset (confirm : bool)             (* line 166 *)
| OnRow (row : nat) (e : RowEvent)
| OnOrphan (r : Row) (e : RowEvent).

(** [editingTaskId === task.id] *)
Definition is_editing (c : DailyTaskTick) (task : Task) : bool :=
  match editingTaskId c with
  | Some e => e =? id task
  | None => false
  end.

(** The markup of one row, lines 185-253: the handler an element of the
    row runs on the current state [c], or [None] when the row's render
    did not produce that element. *)
Definition deliver (r : Row) (e : RowEvent) (c : DailyTaskTick)
  : option DailyTaskTick :=
  let task := row_task r in
  let render := row_render r in
  match e with
  | ChangeCheckbox =>
      Some (handleToggleCompletion render (id task) c)
  | ChangeEditInput v =>
      if is_editing render task then Some (setEditingTaskTitle v c) else None
  | BlurEditInput =>
      if is_editing render task
      then Some (handleSaveEdit render (id task) c) else None
  | KeyDownEditInput key =>
      if is_editing render task then
        let c1 := if key =? "Enter" then handleSaveEdit render (id task) c
                  else c in
        Some (if key =? "Escape" then handleCancelEdit c1 else c1)
      else None
  | ClickEdit =>
      if is_editing render task then None
      else Some (handleEditTask (id task) (title task) c)
  | ClickDelete confirm =>
      Some (handleDeleteTask confirm (id task) c)
  end.

(** The handler an event runs on the state [c], or [None] when the
    element that would deliver it is not rendered.  A row of the task
    list was rendered from [c]; an orphaned row brings its own render. *)
Definition dispatch (ev : Event) (c : DailyTaskTick) : option DailyTaskTick :=
  match ev with
  | ChangeNewTaskTitle v => Some (setNewTaskTitle v c)
  | SubmitAdd now iso => Some (handleAddTask now iso c)
  | ClickReset confirm =>
      if (0 <? totalTasksCount c)%nat
      then Some (handleResetTodayCompletions confirm c) else None
  | OnRow row e =>
      match nth_error (rows c) row with
      | Some r => deliver r e c
      | None => None
      end
  | OnOrphan r e => deliver r e c
  end.

(** One event: the handler, then the write-through effects. *)
Definition step (ev : Event) (w : World) : option World :=
  match dispatch ev (fst w) with
  | Some c' => Some (c', saveEffects c' (snd w))
  | None => None
  end.

(** Running a script of events. *)
Fixpoint run (evs : list Event) (w : World) : option World :=
  match evs with
  | [] => Some w
  | ev :: rest =>
      match step ev w with
      | Some w' => run rest w'
      | None => None
      end
  end.

(** ** Rows left behind by the reconciliation of keyed children

    When the task list changes React matches the old rows against the
    new children: first position by position while the keys agree; at
    the first disagreement the remaining old rows are put in a map from
    key to row, the new children take their rows out of the map, and
    what is left in the map is removed from the page.  An old row whose
    key a later old row also has is overwritten in the map: it is
    neither reused nor removed, and its [<li>] stays on the page with
    the handlers of its last render. *)

(** The rows of [old] overwritten in the key map. *)
Fixpoint shadowed (old : list Row) : list Row :=
  match old with
  | [] => []
  | r :: rest =>
      if existsb (fun r' => key r' =? key r) rest
      then r :: shadowed rest
      else shadowed rest
  end.

(** The rows of [old] left behind when the children become [new]. *)
Fixpoint orphaned (old : list Row) (new : list Task) : list Row :=
  match old, new with
  | o :: old', n :: new' =>
      if key o =? id n then orphaned old' new' else shadowed old
  | _, _ => []
  end.

(** The orphans on the page after the render of [c'] follows that of
    [c].  With no task left the [<ul>] is replaced by a paragraph
    (line 174) and everything inside it goes. *)
Definition orphans_after (orphans : list Row) (c c' : DailyTaskTick)
  : list Row :=
  match tasks c' with
  | [] => []
  | _ :: _ => orphans ++ orphaned (rows c) (tasks c')
  end.

(** An event of an orphaned row needs that row on the page. *)
Definition on_page (orphans : list Row) (ev : Event) : Prop :=
  match ev with
  | OnOrphan r _ => In r orphans
  | _ => True
  end.

(** ** Reachable worlds

    The application is mounted on a fresh profile, events are delivered,
    and the page is reloaded on any calendar day.  [allowed] restricts
    the events considered; the list is the orphaned rows on the page. *)
Inductive reachable_by (allowed : Event -> DailyTaskTick -> Prop)
  : list Row -> World -> Prop :=
| reach_mount d : reachable_by allowed [] (mount d freshStorage)
| reach_step orphans ev w w' :
    reachable_by allowed orphans w ->
    on_page orphans ev ->
    allowed ev (fst w) ->
    step ev w = Some w' ->
    reachable_by allowed (orphans_after orphans (fst w) (fst w')) w'
| reach_reload orphans d w :
    reachable_by allowed orphans w ->
    reachable_by allowed [] (mount d (snd w)).

Definition any_event (ev : Event) (c : DailyTaskTick) : Prop := True.

(** The worlds the application reaches. *)
Definition reachable (w : World) : Prop :=
  exists orphans, reachable_by any_event orphans w.

(** A submit whose clock reading is the id of no listed task. *)
Definition fresh_clock (ev : Event) (c : DailyTaskTick) : Prop :=
  match ev with
  | SubmitAdd now _ => ~ In (toString now) (map id (tasks c))
  | _ => True
  end.

(** The worlds reached while no submit repeats a listed id. *)
Definition reachable_without_collision (w : World) : Prop :=
  exists orphans, reachable_by fresh_clock orphans w.

(** Every event of the script can be delivered: it is allowed, and an
    orphaned row it comes from is on the page. *)
Fixpoint deliverable (allowed : Event -> DailyTaskTick -> Prop)
    (evs : list Event) (orphans : list Row) (w : World) : Prop :=
  match evs with
  | [] => True
  | ev :: rest =>
      on_page orphans ev /\ allowed ev (fst w) /\
      (match step ev w with
       | Some w' =>
           deliverable allowed rest
             (orphans_after orphans (fst w) (fst w')) w'
       | None => True
       end)
  end.

(** An event of the form, the header or a row of the task list. *)
Definition is_live (ev : Event) : bool :=
  match ev with
  | OnOrphan _ _ => false
  | _ => true
  end.

Definition live_only (evs : list Event) : bool := forallb is_live evs.

(** ** Predicates the claims speak of *)

(** At most one record for each (task id, date) pair: a record is that
    pair, so the list has no repeated element. *)
Definition one_record_per_pair (cs : list CompletionRecord) : Prop :=
  NoDup cs.

(** Every record names the id of a task in the list. *)
Definition no_dangling (ts : list Task) (cs : list CompletionRecord) : Prop :=
  forall r, In r cs -> exists task, In task ts /\ id task = taskId r.

(** All task ids pairwise distinct. *)
Definition unique_ids (ts : list Task) : Prop :=
  NoDup (map id ts).

(** Storage holds what the state holds. *)
Definition mirrored (w : World) : Prop :=
  dailyTaskTick_tasks (snd w) = Some (tasks (fst w)) /\
  dailyTaskTick_completions (snd w) = Some (completions (fst w)) /\
  dailyTaskTick_lastCompletionDate (snd w)
    = Some (currentLocalISODate (fst w)).

(** ** Concrete sessions

    Two calendar days and the sessions the examples below run on them. *)
Definition day1 : LocalDate :=
  {| getFullYear := 2024; getMonth := 0; getDate := 5 |}.

Definition day2 : LocalDate :=
  {| getFullYear := 2024; getMonth := 0; getDate := 6 |}.

Definition run_from_fresh (d : LocalDate) (evs : list Event) : World :=
  match run evs (mount d freshStorage) with
  | Some w => w
  | None => mount d freshStorage
  end.

(** One task is added when the clock reads 1000 and is ticked; a second
    title is typed into the form. *)
Definition ticked_session : World :=
  run_from_fresh day1
    [ChangeNewTaskTitle "Workout"; SubmitAdd 1000 "2024-01-05T08:00:00.000Z";
     OnRow 0 ChangeCheckbox; ChangeNewTaskTitle " Read "].

(** The form is then submitted while the clock reads 1000 again. *)
Definition collision_session : World :=
  run_from_fresh day1
    [ChangeNewTaskTitle "Workout"; SubmitAdd 1000 "2024-01-05T08:00:00.000Z";
     OnRow 0 ChangeCheckbox; ChangeNewTaskTitle " Read ";
     SubmitAdd 1000 "2024-01-05T08:00:00.000Z"].

(** A state in which the task with id 7 is being renamed. *)
Definition editing_state (buffer : string) : DailyTaskTick :=
  {| tasks := [ {| id := "7"; title := "Workout";
                   createdAt := "2024-01-05T08:00:00.000Z";
                   archived := false |};
                {| id := "8"; title := "Read";
                   createdAt := "2024-01-05T09:00:00.000Z";
                   archived := false |} ];
     completions := [ {| taskId := "7"; date := "2024-01-05" |} ];
     newTaskTitle := "   ";
     editingTaskId := Some "7";
     editingTaskTitle := buffer;
     currentLocalISODate := "2024-01-05" |}.

(** Storage left by a session of [day1] with one completion. *)
Definition day1_storage : Storage :=
  {| dailyTaskTick_tasks := Some (tasks (editing_state ""));
     dailyTaskTick_completions := Some (completions (editing_state ""));
     dailyTaskTick_lastCompletionDate := Some "2024-01-05" |}.

(** The task "Workout" as a submit at clock reading 1000 creates it. *)
Definition workout : Task :=
  {| id := "1000"; title := "Workout";
     createdAt := "2024-01-05T08:00:00.000Z"; archived := false |}.

(** "Stretch" is added at clock reading 5, then "Workout" and "Read"
    both at clock reading 1000. *)
Definition late_collision_script : list Event :=
  [ChangeNewTaskTitle "Stretch"; SubmitAdd 5 "2024-01-05T08:00:00.000Z";
   ChangeNewTaskTitle "Workout"; SubmitAdd 1000 "2024-01-05T08:00:00.000Z";
   ChangeNewTaskTitle "Read"; SubmitAdd 1000 "2024-01-05T08:00:00.000Z"].

Definition late_collision_session : World :=
  run_from_fresh day1 late_collision_script.

(** The row of "Workout" as that session rendered it. *)
Definition late_workout_row : Row :=
  {| row_task := workout; row_render := fst late_collision_session |}.

(** "Stretch" is deleted: the keys go from 5, 1000, 1000 to 1000, 1000,
    and the old row of "Workout" is left behind. *)
Definition orphan_session : World :=
  run_from_fresh day1
    (late_collision_script ++ [OnRow 0 (ClickDelete true)]).

(** The checkbox of the row left behind is clicked twice. *)
Definition duplicate_session : World :=
  run_from_fresh day1
    (late_collision_script ++
     [OnRow 0 (ClickDelete true);
      OnOrphan late_workout_row ChangeCheckbox;
      OnOrphan late_workout_row ChangeCheckbox]).

(** "Workout" and "Read" are added at clock reading 1000, then
    "Stretch" at clock reading 5. *)
Definition early_collision_script : list Event :=
  [ChangeNewTaskTitle "Workout"; SubmitAdd 1000 "2024-01-05T08:00:00.000Z";
   ChangeNewTaskTitle "Read"; SubmitAdd 1000 "2024-01-05T08:00:00.000Z";
   ChangeNewTaskTitle "Stretch"; SubmitAdd 5 "2024-01-05T08:00:00.000Z"].

Definition early_collision_session : World :=
  run_from_fresh day1 early_collision_script.

Definition early_workout_row : Row :=
  {| row_task := workout; row_render := fst early_collision_session |}.

(** The first row is deleted, which removes both tasks of id 1000: the
    keys go from 1000, 1000, 5 to 5 and the old row of "Workout" is
    left behind.  Its checkbox is then clicked. *)
Definition dangling_session : World :=
  run_from_fresh day1
    (early_collision_script ++
     [OnRow 0 (ClickDelete true);
      OnOrphan early_workout_row ChangeCheckbox]).

(** The calendar fields [getMonth] and [getDate] can return. *)
Definition calendar_day (d : LocalDate) : Prop :=
  (0 <= getMonth d <= 11)%Z /\ (1 <= getDate d <= 31)%Z.

(** The integers from 0 up to and excluding [n]. *)
Definition below (n : nat) : list Z := map Z.of_nat (seq 0 n).

(** Case analysis on a delivered row event and on a dispatched event. *)
Ltac deliver_cases H :=
  match type of H with
  | deliver ?r ?e ?c = Some ?c' =>
      destruct e; unfold deliver in H;
      repeat match type of H with
        | context [is_editing ?c ?t] =>
            let E := fresh "Hed" in destruct (is_editing c t) eqn:E
        end;
      try discriminate H;
      injection H as <-
  end.

Ltac dispatch_cases H :=
  match type of H with
  | dispatch ?ev ?c = Some ?c' =>
      destruct ev; simpl in H;
      repeat match type of H with
        | context [nth_error ?l ?n] =>
            let E := fresh "Hrow" in destruct (nth_error l n) eqn:E
        | context [(0 <? ?n)%nat] => destruct (0 <? n)%nat
        end;
      try discriminate H
  end.

(** * Properties *)

(** ** Facts about the record test and the toggle *)

Lemma is_record_of_true tid today r :
  is_record_of tid today r = true <-> r = {| taskId := tid; date := today |}.
Proof.
  unfold is_record_of. destruct r as [t d]; simpl.
  rewrite andb_true_iff, !String.eqb_eq. split.
  - intros [-> ->]. reflexivity.
  - intros H. injection H as -> ->. auto.
Qed.

Lemma some_record_iff tid today cs :
  existsb (is_record_of tid today) cs = true
  <-> In {| taskId := tid; date := today |} cs.
Proof.
  rewrite existsb_exists. split.
  - intros [r [Hin Hr]]. apply is_record_of_true in Hr. now subst.
  - intros Hin. eexists. split; [exact Hin|]. now apply is_record_of_true.
Qed.

Lemma some_record_filter_out tid today cs :
  existsb (is_record_of tid today)
    (filter (fun r => negb (is_record_of tid today r)) cs) = false.
Proof.
  apply not_true_is_false. rewrite existsb_exists.
  intros [r [Hin Hr]]. apply filter_In in Hin as [_ Hn].
  rewrite Hr in Hn. discriminate.
Qed.

Lemma some_record_appended tid today cs :
  existsb (is_record_of tid today)
    (cs ++ [{| taskId := tid; date := today |}]) = true.
Proof.
  apply some_record_iff, in_or_app. right. now left.
Qed.

(** What one toggle does to the status of the toggled task when the
    handler's render is the current state. *)
Lemma toggle_flips tid c :
  isCompletedToday tid (handleToggleCompletion c tid c)
  = negb (isCompletedToday tid c).
Proof.
  unfold isCompletedToday, handleToggleCompletion.
  destruct (existsb _ (completions c)) eqn:E; simpl.
  - apply some_record_filter_out.
  - apply some_record_appended.
Qed.

Lemma toggle_keeps_tasks render tid c :
  tasks (handleToggleCompletion render tid c) = tasks c /\
  editingTaskId (handleToggleCompletion render tid c) = editingTaskId c.
Proof.
  unfold handleToggleCompletion. now destruct (existsb _ _).
Qed.

Lemma toggle_keeps_date render tid c :
  currentLocalISODate (handleToggleCompletion render tid c)
  = currentLocalISODate c.
Proof.
  unfold handleToggleCompletion. now destruct (existsb _ _).
Qed.

(** ** Invariant steps, one handler at a time *)

Lemma toggle_one_record_per_pair tid c :
  one_record_per_pair (completions c) ->
  one_record_per_pair (completions (handleToggleCompletion c tid c)).
Proof.
  unfold one_record_per_pair, handleToggleCompletion. intros Hnd.
  destruct (existsb _ (completions c)) eqn:E; simpl.
  - now apply NoDup_filter.
  - apply NoDup_app; [assumption | repeat constructor; intros [] |].
    intros r Hin [<- | []].
    apply some_record_iff in Hin. congruence.
Qed.

Lemma delete_one_record_per_pair b tid c :
  one_record_per_pair (completions c) ->
  one_record_per_pair (completions (handleDeleteTask b tid c)).
Proof.
  unfold one_record_per_pair, handleDeleteTask. intros Hnd.
  destruct b; simpl; [now apply NoDup_filter | assumption].
Qed.

Lemma reset_one_record_per_pair b c :
  one_record_per_pair (completions c) ->
  one_record_per_pair (completions (handleResetTodayCompletions b c)).
Proof.
  unfold one_record_per_pair, handleResetTodayCompletions. intros Hnd.
  destruct b; simpl; [now apply NoDup_filter | assumption].
Qed.

Lemma add_keeps_completions now iso c :
  completions (handleAddTask now iso c) = completions c.
Proof. unfold handleAddTask. now destruct (_ =? _). Qed.

Lemma saveEdit_keeps_completions render tid c :
  completions (handleSaveEdit render tid c) = completions c.
Proof. unfold handleSaveEdit. now destruct (_ =? _). Qed.

Lemma saveEdit_keeps_ids render tid c :
  map id (tasks (handleSaveEdit render tid c)) = map id (tasks c).
Proof.
  unfold handleSaveEdit. destruct (_ =? _); [reflexivity|]. simpl.
  rewrite map_map. apply map_ext. intros t. now destruct (id t =? tid).
Qed.

Lemma saveEdit_keeps_date render tid c :
  currentLocalISODate (handleSaveEdit render tid c) = currentLocalISODate c.
Proof. unfold handleSaveEdit. now destruct (_ =? _). Qed.

Lemma no_dangling_ids ts ts' cs :
  map id ts = map id ts' -> no_dangling ts cs -> no_dangling ts' cs.
Proof.
  intros Hids H r Hr. destruct (H r Hr) as [t [Hin Hid]].
  assert (Hi : In (taskId r) (map id ts')).
  { rewrite <- Hids, <- Hid. now apply in_map. }
  apply in_map_iff in Hi as [t' [Hid' Hin']]. eauto.
Qed.

Lemma no_dangling_sub ts cs cs' :
  (forall r, In r cs' -> In r cs) -> no_dangling ts cs -> no_dangling ts cs'.
Proof. intros Hsub H r Hr. apply H, Hsub, Hr. Qed.

Lemma toggle_no_dangling render task c :
  In task (tasks c) ->
  no_dangling (tasks c) (completions c) ->
  no_dangling (tasks (handleToggleCompletion render (id task) c))
              (completions (handleToggleCompletion render (id task) c)).
Proof.
  unfold handleToggleCompletion. intros Hin H.
  destruct (existsb _ (completions render)); simpl.
  - eapply no_dangling_sub; [|exact H].
    intros r Hr. now apply filter_In in Hr.
  - intros r Hr. apply in_app_or in Hr as [Hr | [<- | []]].
    + now apply H.
    + exists task. now split.
Qed.

Lemma delete_no_dangling b tid c :
  no_dangling (tasks c) (completions c) ->
  no_dangling (tasks (handleDeleteTask b tid c))
              (completions (handleDeleteTask b tid c)).
Proof.
  unfold handleDeleteTask. intros H. destruct b; simpl; [|assumption].
  intros r Hr. apply filter_In in Hr as [Hr Hne].
  destruct (H r Hr) as [t [Hin Hid]]. exists t. split; [|assumption].
  apply filter_In. split; [assumption|]. now rewrite Hid.
Qed.

Lemma add_no_dangling now iso c :
  no_dangling (tasks c) (completions c) ->
  no_dangling (tasks (handleAddTask now iso c))
              (completions (handleAddTask now iso c)).
Proof.
  unfold handleAddTask. intros H. destruct (_ =? _); [assumption|]. simpl.
  intros r Hr. destruct (H r Hr) as [t [Hin Hid]].
  exists t. split; [|assumption]. apply in_or_app. now left.
Qed.

Lemma saveEdit_no_dangling render tid c :
  no_dangling (tasks c) (completions c) ->
  no_dangling (tasks (handleSaveEdit render tid c))
              (completions (handleSaveEdit render tid c)).
Proof.
  intros H. rewrite saveEdit_keeps_completions.
  eapply no_dangling_ids; [|exact H]. symmetry. apply saveEdit_keeps_ids.
Qed.

Lemma reset_no_dangling b c :
  no_dangling (tasks c) (completions c) ->
  no_dangling (tasks (handleResetTodayCompletions b c))
              (completions (handleResetTodayCompletions b c)).
Proof.
  unfold handleResetTodayCompletions. intros H. destruct b; simpl; [|assumption].
  eapply no_dangling_sub; [|exact H].
  intros r Hr. now apply filter_In in Hr.
Qed.

(** ** Invariant steps, one row event at a time *)

Lemma rows_nth c row r :
  nth_error (rows c) row = Some r ->
  exists task, nth_error (tasks c) row = Some task /\
               r = {| row_task := task; row_render := c |}.
Proof.
  unfold rows. rewrite nth_error_map.
  destruct (nth_error (tasks c) row) as [task|]; [|discriminate].
  simpl. intros H. injection H as <-. eauto.
Qed.

Lemma deliver_keeps_date r e c c' :
  deliver r e c = Some c' ->
  currentLocalISODate c' = currentLocalISODate c.
Proof.
  intros H. deliver_cases H; simpl; try reflexivity.
  - apply toggle_keeps_date.
  - apply saveEdit_keeps_date.
  - destruct (key0 =? "Enter"), (key0 =? "Escape"); simpl;
      rewrite ?saveEdit_keeps_date; reflexivity.
  - unfold handleDeleteTask. now destruct confirm.
Qed.

Lemma deliver_live_one_record_per_pair task e c c' :
  one_record_per_pair (completions c) ->
  deliver {| row_task := task; row_render := c |} e c = Some c' ->
  one_record_per_pair (completions c').
Proof.
  intros Hinv H. deliver_cases H; simpl in *; try assumption.
  - now apply toggle_one_record_per_pair.
  - now rewrite saveEdit_keeps_completions.
  - destruct (key0 =? "Enter"), (key0 =? "Escape"); simpl;
      rewrite ?saveEdit_keeps_completions; assumption.
  - now apply delete_one_record_per_pair.
Qed.

Lemma deliver_no_dangling r e c c' :
  In (row_task r) (tasks c) ->
  no_dangling (tasks c) (completions c) ->
  deliver r e c = Some c' ->
  no_dangling (tasks c') (completions c').
Proof.
  intros Hin Hinv H. deliver_cases H; simpl; try assumption.
  - now apply toggle_no_dangling.
  - now apply saveEdit_no_dangling.
  - destruct (key0 =? "Enter"), (key0 =? "Escape"); simpl;
      try assumption; now apply saveEdit_no_dangling.
  - now apply delete_no_dangling.
Qed.

(** ** Invariant steps, one event at a time *)

Lemma dispatch_keeps_date ev c c' :
  dispatch ev c = Some c' ->
  currentLocalISODate c' = currentLocalISODate c.
Proof.
  intros H. dispatch_cases H.
  - now injection H as <-.
  - injection H as <-. unfold handleAddTask. now destruct (_ =? _).
  - injection H as <-. unfold handleResetTodayCompletions.
    now destruct confirm.
  - eapply deliver_keeps_date; eassumption.
  - eapply deliver_keeps_date; eassumption.
Qed.

Lemma dispatch_live_one_record_per_pair ev c c' :
  is_live ev = true ->
  one_record_per_pair (completions c) ->
  dispatch ev c = Some c' ->
  one_record_per_pair (completions c').
Proof.
  intros Hlive Hinv H. dispatch_cases H; try discriminate Hlive.
  - now injection H as <-.
  - injection H as <-. now rewrite add_keeps_completions.
  - injection H as <-. now apply reset_one_record_per_pair.
  - apply rows_nth in Hrow as [task [_ ->]].
    eapply deliver_live_one_record_per_pair; eassumption.
Qed.

Lemma dispatch_live_no_dangling ev c c' :
  is_live ev = true ->
  no_dangling (tasks c) (completions c) ->
  dispatch ev c = Some c' ->
  no_dangling (tasks c') (completions c').
Proof.
  intros Hlive Hinv H. dispatch_cases H; try discriminate Hlive.
  - now injection H as <-.
  - injection H as <-. now apply add_no_dangling.
  - injection H as <-. now apply reset_no_dangling.
  - apply rows_nth in Hrow as [task [Hrow ->]].
    eapply deliver_no_dangling; [|eassumption|eassumption].
    simpl. eapply nth_error_In; eassumption.
Qed.

(** ** The load path *)

Lemma loadEffect_tasks c ls :
  tasks (fst (loadEffect c ls))
  = match dailyTaskTick_tasks ls with Some l => l | None => tasks c end.
Proof.
  unfold loadEffect.
  destruct (dailyTaskTick_tasks ls);
    destruct (if same_date _ _ then _ else _); reflexivity.
Qed.

Lemma loadEffect_completions c ls :
  completions (fst (loadEffect c ls))
  = match (if same_date (dailyTaskTick_lastCompletionDate ls)
                        (currentLocalISODate c)
           then dailyTaskTick_completions ls else None) with
    | Some l => l
    | None => []
    end.
Proof.
  unfold loadEffect.
  destruct (dailyTaskTick_tasks ls);
    destruct (if same_date _ _ then _ else _); reflexivity.
Qed.

Lemma loadEffect_date c ls :
  currentLocalISODate (fst (loadEffect c ls)) = currentLocalISODate c.
Proof.
  unfold loadEffect.
  destruct (dailyTaskTick_tasks ls);
    destruct (if same_date _ _ then _ else _); reflexivity.
Qed.

Lemma loadEffect_lastCompletionDate c ls :
  dailyTaskTick_lastCompletionDate (snd (loadEffect c ls))
  = Some (currentLocalISODate c).
Proof.
  unfold loadEffect.
  destruct (if same_date _ _ then _ else _); reflexivity.
Qed.

Lemma mount_state d ls :
  fst (mount d ls) = fst (loadEffect (initial (todayLocalISO d)) ls).
Proof.
  unfold mount. now destruct (loadEffect _ ls).
Qed.

Lemma mount_date d ls :
  currentLocalISODate (fst (mount d ls)) = todayLocalISO d.
Proof. now rewrite mount_state, loadEffect_date. Qed.

Lemma mount_mirrored d ls : mirrored (mount d ls).
Proof.
  unfold mirrored, mount.
  pose proof (loadEffect_lastCompletionDate (initial (todayLocalISO d)) ls) as Hd.
  pose proof (loadEffect_date (initial (todayLocalISO d)) ls) as Ht.
  destruct (loadEffect _ ls) as [c1 ls1]. simpl in *.
  rewrite Hd, Ht. auto.
Qed.

Lemma mount_fresh d :
  tasks (fst (mount d freshStorage)) = [] /\
  completions (fst (mount d freshStorage)) = [].
Proof.
  rewrite mount_state, loadEffect_tasks, loadEffect_completions. now split.
Qed.

Lemma step_mirrored ev w w' :
  mirrored w -> step ev w = Some w' -> mirrored w'.
Proof.
  unfold step, mirrored. intros (_ & _ & Hd) H.
  destruct (dispatch ev (fst w)) as [c'|] eqn:E; [|discriminate].
  injection H as <-. simpl. rewrite Hd.
  now rewrite (dispatch_keeps_date _ _ _ E).
Qed.

(** Reloading a mirrored world: the tasks come back, the completions
    come back or are dropped. *)
Lemma reload_completions d w :
  mirrored w ->
  completions (fst (mount d (snd w)))
  = if currentLocalISODate (fst w) =? todayLocalISO d
    then completions (fst w) else [].
Proof.
  intros (_ & Hc & Hd).
  rewrite mount_state, loadEffect_completions, Hd, Hc. simpl.
  now destruct (_ =? _).
Qed.

Lemma reload_lists d w :
  mirrored w ->
  tasks (fst (mount d (snd w))) = tasks (fst w) /\
  (completions (fst (mount d (snd w))) = completions (fst w) \/
   completions (fst (mount d (snd w))) = []).
Proof.
  intros Hm. split.
  - destruct Hm as (Ht & _). now rewrite mount_state, loadEffect_tasks, Ht.
  - rewrite (reload_completions d w Hm). destruct (_ =? _); auto.
Qed.

(** ** What holds in every reachable world *)

(** An invariant of worlds kept by mounting, by every event and by
    reloading holds in every reachable world. *)
Lemma reachable_by_ind_world (allowed : Event -> DailyTaskTick -> Prop)
    (P : World -> Prop) :
  (forall d, P (mount d freshStorage)) ->
  (forall ev w w', P w -> allowed ev (fst w) -> step ev w = Some w' -> P w') ->
  (forall d w, P w -> P (mount d (snd w))) ->
  forall orphans w, reachable_by allowed orphans w -> P w.
Proof.
  intros Hm Hs Hr orphans w H.
  induction H as [d | os ev w w' _ IH _ Ha Hstep | os d w _ IH]; eauto.
Qed.

Lemma reachable_by_mirrored allowed orphans w :
  reachable_by allowed orphans w -> mirrored w.
Proof.
  apply reachable_by_ind_world.
  - intros d. apply mount_mirrored.
  - intros ev w0 w' Hm _ Hs. eapply step_mirrored; eassumption.
  - intros d w0 _. apply mount_mirrored.
Qed.

Lemma reachable_mirrored w : reachable w -> mirrored w.
Proof. intros [os H]. eapply reachable_by_mirrored; eassumption. Qed.

(** Restricting the events restricts the worlds. *)
Lemma reachable_by_any allowed orphans w :
  reachable_by allowed orphans w -> reachable_by any_event orphans w.
Proof.
  induction 1 as [d | os ev w w' _ IH Hp _ Hstep | os d w _ IH].
  - apply reach_mount.
  - apply (reach_step _ os ev w w'); trivial. exact I.
  - eapply reach_reload; eassumption.
Qed.

(** A deliverable script leads from a reachable world to a reachable
    world. *)
Lemma run_deliverable allowed evs : forall orphans w w',
  reachable_by allowed orphans w ->
  deliverable allowed evs orphans w ->
  run evs w = Some w' ->
  exists orphans', reachable_by allowed orphans' w'.
Proof.
  induction evs as [|ev rest IH]; simpl; intros os w w' Hr Hd H.
  - injection H as <-. eauto.
  - destruct Hd as (Hp & Ha & Hd).
    destruct (step ev w) as [w1|] eqn:E; [|discriminate].
    eapply IH; [|exact Hd|exact H]. now apply (reach_step _ os ev w w1).
Qed.

Lemma live_only_deliverable evs : forall orphans w,
  live_only evs = true -> deliverable any_event evs orphans w.
Proof.
  induction evs as [|ev rest IH]; simpl; intros os w H; [exact I|].
  apply andb_true_iff in H as [Hev Hrest].
  split; [now destruct ev | split; [exact I|]].
  destruct (step ev w); [now apply IH | exact I].
Qed.

Lemma run_from_fresh_reachable d evs :
  live_only evs = true -> reachable (run_from_fresh d evs).
Proof.
  intros Hlive. unfold run_from_fresh.
  destruct (run evs (mount d freshStorage)) as [w|] eqn:E.
  - eapply run_deliverable; [apply (reach_mount _ d) | | exact E].
    now apply live_only_deliverable.
  - exists []. apply reach_mount.
Qed.

Lemma run_from_fresh_deliverable allowed d evs :
  deliverable allowed evs [] (mount d freshStorage) ->
  exists orphans, reachable_by allowed orphans (run_from_fresh d evs).
Proof.
  intros Hd. unfold run_from_fresh.
  destruct (run evs (mount d freshStorage)) as [w|] eqn:E.
  - eapply run_deliverable; [apply (reach_mount _ d) | exact Hd | exact E].
  - exists []. apply reach_mount.
Qed.

(** * The claims *)

(** C1. Day rollover on load.  When the persisted last-completion date
    equals the session date and a completion list is stored, the load
    effect puts that list in memory and leaves the stored one as it is;
    otherwise the in-memory list is empty and an empty list is
    persisted; either way the session date is persisted as the
    last-completion date.  The same holds once mounting has finished. *)
Theorem load_day_rollover (d : LocalDate) (ls : Storage) :
  let today := todayLocalISO d in
  let w := loadEffect (initial today) ls in
  (forall cs,
     dailyTaskTick_lastCompletionDate ls = Some today ->
     dailyTaskTick_completions ls = Some cs ->
     completions (fst w) = cs /\
     dailyTaskTick_completions (snd w) = Some cs /\
     completions (fst (mount d ls)) = cs /\
     dailyTaskTick_completions (snd (mount d ls)) = Some cs) /\
  (dailyTaskTick_lastCompletionDate ls <> Some today \/
   dailyTaskTick_completions ls = None ->
     completions (fst w) = [] /\
     dailyTaskTick_completions (snd w) = Some [] /\
     completions (fst (mount d ls)) = [] /\
     dailyTaskTick_completions (snd (mount d ls)) = Some []) /\
  dailyTaskTick_lastCompletionDate (snd w) = Some today /\
  dailyTaskTick_lastCompletionDate (snd (mount d ls)) = Some today.
Proof.
  intros today w.
  assert (Hmc : dailyTaskTick_completions (snd (mount d ls))
                = Some (completions (fst (mount d ls)))).
  { apply (mount_mirrored d ls). }
  assert (Hmd : dailyTaskTick_lastCompletionDate (snd (mount d ls))
                = Some today).
  { destruct (mount_mirrored d ls) as (_ & _ & H). rewrite H.
    rewrite mount_state, loadEffect_date. reflexivity. }
  rewrite Hmc, mount_state. fold today. fold w.
  assert (Hc : completions (fst w)
               = match (if same_date (dailyTaskTick_lastCompletionDate ls) today
                        then dailyTaskTick_completions ls else None) with
                 | Some l => l
                 | None => []
                 end).
  { apply loadEffect_completions. }
  assert (Hs : dailyTaskTick_completions (snd w)
               = match (if same_date (dailyTaskTick_lastCompletionDate ls) today
                        then dailyTaskTick_completions ls else None) with
                 | Some l => dailyTaskTick_completions ls
                 | None => Some []
                 end).
  { unfold w, loadEffect. simpl.
    destruct (if same_date _ _ then _ else _); reflexivity. }
  repeat split.
  - rewrite Hc, H, H0. simpl. now rewrite String.eqb_refl.
  - rewrite Hs, H, H0. simpl. now rewrite String.eqb_refl.
  - rewrite Hc, H, H0. simpl. now rewrite String.eqb_refl.
  - f_equal. rewrite Hc, H, H0. simpl. now rewrite String.eqb_refl.
  - rewrite Hc. destruct H as [H | H].
    + destruct (dailyTaskTick_lastCompletionDate ls) as [l|]; simpl; [|reflexivity].
      destruct (String.eqb_spec l today); [congruence | reflexivity].
    + rewrite H. now destruct (same_date _ _).
  - rewrite Hs. destruct H as [H | H].
    + destruct (dailyTaskTick_lastCompletionDate ls) as [l|]; simpl; [|reflexivity].
      destruct (String.eqb_spec l today); [congruence | reflexivity].
    + rewrite H. now destruct (same_date _ _).
  - rewrite Hc. destruct H as [H | H].
    + destruct (dailyTaskTick_lastCompletionDate ls) as [l|]; simpl; [|reflexivity].
      destruct (String.eqb_spec l today); [congruence | reflexivity].
    + rewrite H. now destruct (same_date _ _).
  - f_equal. rewrite Hc. destruct H as [H | H].
    + destruct (dailyTaskTick_lastCompletionDate ls) as [l|]; simpl; [|reflexivity].
      destruct (String.eqb_spec l today); [congruence | reflexivity].
    + rewrite H. now destruct (same_date _ _).
  - apply loadEffect_lastCompletionDate.
  - exact Hmd.
Qed.

Lemma load_day_rollover_witness :
  (dailyTaskTick_lastCompletionDate day1_storage = Some (todayLocalISO day1) /\
   dailyTaskTick_completions day1_storage
     = Some [ {| taskId := "7"; date := "2024-01-05" |} ] /\
   completions (fst (mount day1 day1_storage))
     = [ {| taskId := "7"; date := "2024-01-05" |} ]) /\
  (dailyTaskTick_lastCompletionDate day1_storage <> Some (todayLocalISO day2) /\
   completions (fst (mount day2 day1_storage)) = [] /\
   dailyTaskTick_completions (snd (mount day2 day1_storage)) = Some []).
Proof.
  split.
  - split; [reflexivity|]. split; [reflexivity|].
    apply (proj1 (load_day_rollover day1 day1_storage)
             [ {| taskId := "7"; date := "2024-01-05" |} ]); reflexivity.
  - assert (H : dailyTaskTick_lastCompletionDate day1_storage
                <> Some (todayLocalISO day2))
      by (vm_compute; discriminate).
    split; [exact H|].
    split;
      apply (proj1 (proj2 (load_day_rollover day2 day1_storage)) (or_introl H)).
Defined.

(** C2. The page can hold two identical completion records.  "Stretch"
    is added at clock reading 5 and two tasks at clock reading 1000;
    deleting "Stretch" leaves the old row of the first of the two on
    the page; its checkbox tests the completion list of its own render,
    which is empty, and appends to the current one at every click. *)
Theorem orphaned_row_duplicates_record :
  reachable duplicate_session /\
  map id (tasks (fst duplicate_session)) = ["1000"; "1000"] /\
  completions (fst duplicate_session)
  = [ {| taskId := "1000"; date := "2024-01-05" |};
      {| taskId := "1000"; date := "2024-01-05" |} ] /\
  ~ one_record_per_pair (completions (fst duplicate_session)).
Proof.
  split.
  - apply (run_from_fresh_deliverable any_event). vm_compute.
    repeat split; auto.
  - split; [vm_compute; reflexivity|].
    assert (E : completions (fst duplicate_session)
                = [ {| taskId := "1000"; date := "2024-01-05" |};
                    {| taskId := "1000"; date := "2024-01-05" |} ])
      by (vm_compute; reflexivity).
    split; [exact E|]. rewrite E.
    unfold one_record_per_pair. intros H.
    inversion H as [|x l Hnin _]; subst. apply Hnin. left. reflexivity.
Qed.

(** C3. The page can hold a completion record of a task that is not in
    the list.  Two tasks are added at clock reading 1000 and "Stretch"
    at clock reading 5; deleting the first row removes both tasks of id
    1000 and their records, but leaves the old row of the first on the
    page; a click on its checkbox appends a record for id 1000, and the
    header counts it: one completed out of one task, which is not the
    task completed. *)
Theorem orphaned_row_leaves_dangling_record :
  reachable dangling_session /\
  map id (tasks (fst dangling_session)) = ["5"] /\
  completions (fst dangling_session)
  = [ {| taskId := "1000"; date := "2024-01-05" |} ] /\
  ~ no_dangling (tasks (fst dangling_session))
                (completions (fst dangling_session)) /\
  completedTodayCount (fst dangling_session) = 1 /\
  totalTasksCount (fst dangling_session) = 1 /\
  isCompletedToday "5" (fst dangling_session) = false.
Proof.
  split.
  - apply (run_from_fresh_deliverable any_event). vm_compute.
    repeat split; auto.
  - assert (Et : tasks (fst dangling_session)
                 = [ {| id := "5"; title := "Stretch";
                        createdAt := "2024-01-05T08:00:00.000Z";
                        archived := false |} ])
      by (vm_compute; reflexivity).
    assert (Ec : completions (fst dangling_session)
                 = [ {| taskId := "1000"; date := "2024-01-05" |} ])
      by (vm_compute; reflexivity).
    split; [now rewrite Et|]. split; [exact Ec|].
    split; [|split; [|split]; vm_compute; reflexivity].
    rewrite Et, Ec. intros H.
    destruct (H {| taskId := "1000"; date := "2024-01-05" |})
      as [task [Hin Hid]]; [left; reflexivity|].
    destruct Hin as [<- | []]. discriminate Hid.
Qed.

(** The toggle handler itself has no test on the task list. *)
Example toggle_of_unlisted_id :
  completions (handleToggleCompletion (initial "2024-01-05") "9"
                 (initial "2024-01-05"))
  = [ {| taskId := "9"; date := "2024-01-05" |} ].
Proof. reflexivity. Qed.

(** C4. [handleAddTask] takes the id from the clock alone: in the
    reachable session where the form is submitted twice at the same
    clock reading, the second task gets the id of the first, and the
    task list no longer has pairwise distinct ids. *)
Theorem addTask_equal_clock_equal_id :
  reachable collision_session /\
  map id (tasks (fst collision_session)) = ["1000"; "1000"] /\
  ~ unique_ids (tasks (fst collision_session)).
Proof.
  split; [apply run_from_fresh_reachable; reflexivity|].
  assert (E : map id (tasks (fst collision_session)) = ["1000"; "1000"])
    by (vm_compute; reflexivity).
  split; [exact E|].
  unfold unique_ids. rewrite E. intros H.
  inversion H as [|x l Hnin _]; subst. apply Hnin. left. reflexivity.
Qed.

(** C5. Two toggles of the same task id need not restore its status.
    In the reachable world where the old row of "Workout" is left on
    the page, the task of id 1000 is not completed today; two clicks on
    the checkbox of that row run the toggle handler of the row's render
    twice, and the task is completed today afterwards. *)
Theorem orphaned_row_toggle_twice_changes_status :
  let render := fst late_collision_session in
  let c := fst orphan_session in
  reachable orphan_session /\
  reachable duplicate_session /\
  run [OnOrphan late_workout_row ChangeCheckbox;
       OnOrphan late_workout_row ChangeCheckbox] orphan_session
  = Some duplicate_session /\
  fst duplicate_session
  = handleToggleCompletion render "1000"
      (handleToggleCompletion render "1000" c) /\
  isCompletedToday "1000" c = false /\
  isCompletedToday "1000" (fst duplicate_session) = true.
Proof.
  split; [|split].
  - apply run_from_fresh_reachable. reflexivity.
  - apply (run_from_fresh_deliverable any_event). vm_compute.
    repeat split; auto.
  - split; [vm_compute; reflexivity|].
    split; [vm_compute; reflexivity|].
    split; vm_compute; reflexivity.
Qed.

(** What [handleAddTask] does with a non-blank title, whatever the
    clock reads. *)
Lemma handleAddTask_appends now iso c :
  trim (newTaskTitle c) <> "" ->
  let newTask := {| id := toString now; title := trim (newTaskTitle c);
                    createdAt := iso; archived := false |} in
  tasks (handleAddTask now iso c) = tasks c ++ [newTask] /\
  totalTasksCount (handleAddTask now iso c) = S (totalTasksCount c) /\
  completions (handleAddTask now iso c) = completions c.
Proof.
  intros Hne newTask. unfold handleAddTask, totalTasksCount.
  apply String.eqb_neq in Hne. rewrite Hne. simpl.
  rewrite length_app. simpl. repeat split. lia.
Qed.

(** The new task is shown as not completed when no record carries the
    id the clock gave it. *)
Lemma handleAddTask_unused_id now iso c :
  (forall r, In r (completions c) -> taskId r <> toString now) ->
  isCompletedToday (toString now) (handleAddTask now iso c) = false.
Proof.
  intros Hfresh. unfold isCompletedToday.
  rewrite add_keeps_completions. apply not_true_is_false.
  rewrite existsb_exists. intros [r [Hin Hr]].
  apply is_record_of_true in Hr. subst r. now apply (Hfresh _ Hin).
Qed.

(** C6. In the reachable session where a task with id 1000 is ticked
    and a second title is submitted while the clock reads 1000 again,
    [handleAddTask] appends the new task with the trimmed title and
    [archived = false] and the count grows by one, but the new task is
    completed today: a record for its id and the session date exists. *)
Theorem addTask_on_id_collision_is_completed :
  let c := fst ticked_session in
  let c' := handleAddTask 1000 "2024-01-05T08:00:00.000Z" c in
  let newTask := {| id := "1000"; title := "Read";
                    createdAt := "2024-01-05T08:00:00.000Z";
                    archived := false |} in
  reachable ticked_session /\
  newTaskTitle c = " Read " /\
  tasks c' = tasks c ++ [newTask] /\
  totalTasksCount c' = S (totalTasksCount c) /\
  isCompletedToday (id newTask) c' = true /\
  In {| taskId := id newTask; date := currentLocalISODate c' |}
     (completions c').
Proof.
  split; [apply run_from_fresh_reachable; reflexivity|].
  split; [vm_compute; reflexivity|].
  split; [vm_compute; reflexivity|].
  split; [vm_compute; reflexivity|].
  split; [vm_compute; reflexivity|].
  vm_compute. left. reflexivity.
Qed.

(** C7. A title that trims to the empty string is ignored: the add and
    the save-edit handlers return the state they were given, and the
    event that runs them is delivered without an error and leaves a
    mirrored world as it is. *)
Theorem blank_title_is_ignored :
  (forall now iso c,
     trim (newTaskTitle c) = "" -> handleAddTask now iso c = c) /\
  (forall render tid c,
     trim (editingTaskTitle render) = "" -> handleSaveEdit render tid c = c) /\
  (forall now iso w,
     mirrored w -> trim (newTaskTitle (fst w)) = "" ->
     step (SubmitAdd now iso) w = Some w) /\
  (forall row task w,
     mirrored w -> trim (editingTaskTitle (fst w)) = "" ->
     nth_error (tasks (fst w)) row = Some task ->
     is_editing (fst w) task = true ->
     step (OnRow row BlurEditInput) w = Some w).
Proof.
  assert (Hsave : forall w, mirrored w -> saveEffects (fst w) (snd w) = snd w).
  { intros [c [st sc sd]] (Ht & Hc & _). simpl in *. subst.
    reflexivity. }
  split; [|split; [|split]].
  - intros now iso c H. unfold handleAddTask. now rewrite H.
  - intros render tid c H. unfold handleSaveEdit. now rewrite H.
  - intros now iso w Hm H. unfold step. simpl.
    unfold handleAddTask. rewrite H. simpl.
    rewrite (Hsave w Hm). now destruct w.
  - intros row task w Hm H Hrow Hed. unfold step. simpl.
    unfold rows. rewrite nth_error_map, Hrow. simpl.
    unfold deliver. simpl. rewrite Hed.
    unfold handleSaveEdit. rewrite H. simpl.
    rewrite (Hsave w Hm). now destruct w.
Qed.

Lemma blank_title_is_ignored_witness :
  (trim (newTaskTitle (editing_state "  ")) = "" /\
   handleAddTask 1000 "2024-01-05T08:00:00.000Z" (editing_state "  ")
   = editing_state "  ") /\
  (trim (editingTaskTitle (editing_state "  ")) = "" /\
   handleSaveEdit (editing_state "  ") "7" (editing_state "  ")
   = editing_state "  ").
Proof.
  split.
  - split; [reflexivity|].
    apply (proj1 blank_title_is_ignored). reflexivity.
  - split; [reflexivity|].
    apply (proj1 (proj2 blank_title_is_ignored)). reflexivity.
Defined.

(** C8. Delete is gated by the confirmation: declined, the state is
    returned as it was; confirmed, the tasks left are those of another
    id, the completion records left are those of another task id, both
    in their former order, and nothing else changes. *)
Theorem deleteTask_confirmation_gated (tid : string) (c : DailyTaskTick) :
  handleDeleteTask false tid c = c /\
  (let c' := handleDeleteTask true tid c in
   tasks c' = filter (fun task => negb (id task =? tid)) (tasks c) /\
   completions c' = filter (fun r => negb (taskId r =? tid)) (completions c) /\
   (forall task, In task (tasks c') <-> In task (tasks c) /\ id task <> tid) /\
   (forall r,
      In r (completions c') <-> In r (completions c) /\ taskId r <> tid) /\
   newTaskTitle c' = newTaskTitle c /\
   editingTaskId c' = editingTaskId c /\
   editingTaskTitle c' = editingTaskTitle c /\
   currentLocalISODate c' = currentLocalISODate c).
Proof.
  split; [reflexivity|]. simpl.
  assert (Ht : forall task,
             In task (filter (fun task => negb (id task =? tid)) (tasks c))
             <-> In task (tasks c) /\ id task <> tid).
  { intros task. rewrite filter_In, negb_true_iff, String.eqb_neq. tauto. }
  assert (Hr : forall r,
             In r (filter (fun r => negb (taskId r =? tid)) (completions c))
             <-> In r (completions c) /\ taskId r <> tid).
  { intros r. rewrite filter_In, negb_true_iff, String.eqb_neq. tauto. }
  auto 10.
Qed.

(** C9. Saving a non-blank edit touches titles only: the task list keeps
    its length and order; in each row the task keeps its id, creation
    time and archived flag; a task of another id is unchanged and a task
    of the edited id gets the trimmed buffer as title; the completion
    list, and with it every completed-today status, is unchanged.  The
    buffer is that of the handler's render, whichever it is. *)
Theorem saveEdit_changes_only_title
    (render : DailyTaskTick) (tid : string) (c : DailyTaskTick) :
  trim (editingTaskTitle render) <> "" ->
  let c' := handleSaveEdit render tid c in
  List.length (tasks c') = List.length (tasks c) /\
  (forall row task,
     nth_error (tasks c) row = Some task ->
     exists task',
       nth_error (tasks c') row = Some task' /\
       id task' = id task /\
       createdAt task' = createdAt task /\
       archived task' = archived task /\
       (id task = tid -> title task' = trim (editingTaskTitle render)) /\
       (id task <> tid -> task' = task)) /\
  completions c' = completions c /\
  (forall x, isCompletedToday x c' = isCompletedToday x c) /\
  newTaskTitle c' = newTaskTitle c /\
  currentLocalISODate c' = currentLocalISODate c.
Proof.
  intros Hne c'. subst c'. unfold handleSaveEdit.
  apply String.eqb_neq in Hne. rewrite Hne. simpl.
  split; [apply length_map|].
  split; [|repeat split].
  intros row task Hrow. rewrite nth_error_map, Hrow. simpl.
  eexists. split; [reflexivity|].
  destruct (String.eqb_spec (id task) tid) as [E | E]; simpl.
  - repeat split; trivial. intros Hc. contradiction.
  - repeat split; trivial. intros Hc. contradiction.
Qed.

Lemma saveEdit_changes_only_title_witness :
  trim (editingTaskTitle (editing_state " Workout AM ")) <> "" /\
  tasks (handleSaveEdit (editing_state " Workout AM ") "7"
           (editing_state " Workout AM "))
  = [ {| id := "7"; title := "Workout AM";
         createdAt := "2024-01-05T08:00:00.000Z"; archived := false |};
      {| id := "8"; title := "Read";
         createdAt := "2024-01-05T09:00:00.000Z"; archived := false |} ] /\
  completions (handleSaveEdit (editing_state " Workout AM ") "7"
                 (editing_state " Workout AM "))
  = completions (editing_state " Workout AM ").
Proof.
  assert (H : trim (editingTaskTitle (editing_state " Workout AM ")) <> "")
    by (vm_compute; discriminate).
  split; [exact H|]. split; [reflexivity|].
  apply (proj1 (proj2 (proj2
           (saveEdit_changes_only_title (editing_state " Workout AM ") "7"
              (editing_state " Workout AM ") H)))).
Defined.

(** C10. The toggle handler, for any task id and whatever render it
    closes over, changes the completion list only: the task list, the
    editing id and buffer, the form input and the session date are what
    they were. *)
Theorem toggle_changes_only_completions
    (render : DailyTaskTick) (tid : string) (c : DailyTaskTick) :
  let c' := handleToggleCompletion render tid c in
  tasks c' = tasks c /\
  editingTaskId c' = editingTaskId c /\
  editingTaskTitle c' = editingTaskTitle c /\
  newTaskTitle c' = newTaskTitle c /\
  currentLocalISODate c' = currentLocalISODate c.
Proof.
  unfold handleToggleCompletion.
  destruct (existsb _ (completions render)); simpl; repeat split.
Qed.

(** * Further properties of the component *)

(** ** Reset and the counters (lines 121-132) *)

Lemma filter_none {A} (p : A -> bool) l :
  (forall x, In x l -> p x = false) -> filter p l = [].
Proof.
  induction l as [|a l IH]; simpl; intros H; [reflexivity|].
  rewrite (H a (or_introl eq_refl)). apply IH. intros x Hx. apply H. now right.
Qed.

Lemma filter_all {A} (p : A -> bool) l :
  (forall x, In x l -> p x = true) -> filter p l = l.
Proof.
  induction l as [|a l IH]; simpl; intros H; [reflexivity|].
  rewrite (H a (or_introl eq_refl)). f_equal. apply IH.
  intros x Hx. apply H. now right.
Qed.

(** X1. Reset, once confirmed, leaves no record of the session date:
    the completed-today count is 0 and no task is completed today; the
    records of other dates and the task list stay.  Declined, it
    returns the state as it was. *)
Theorem reset_clears_today (c : DailyTaskTick) :
  handleResetTodayCompletions false c = c /\
  (let c' := handleResetTodayCompletions true c in
   completedTodayCount c' = 0 /\
   (forall x, isCompletedToday x c' = false) /\
   (forall r, In r (completions c')
              <-> In r (completions c) /\ date r <> currentLocalISODate c) /\
   tasks c' = tasks c /\
   totalTasksCount c' = totalTasksCount c /\
   currentLocalISODate c' = currentLocalISODate c).
Proof.
  split; [reflexivity|]. simpl.
  assert (Hin : forall r,
             In r (filter (fun r => negb (date r =? currentLocalISODate c))
                          (completions c))
             <-> In r (completions c) /\ date r <> currentLocalISODate c).
  { intros r. rewrite filter_In, negb_true_iff, String.eqb_neq. tauto. }
  split; [|split; [|auto]].
  - unfold completedTodayCount. simpl. rewrite filter_none; [reflexivity|].
    intros r Hr. apply Hin in Hr as [_ Hr]. now apply String.eqb_neq.
  - intros x. unfold isCompletedToday. simpl. apply not_true_is_false.
    rewrite existsb_exists. intros [r [Hr Hx]].
    apply Hin in Hr as [_ Hr]. apply is_record_of_true in Hx.
    subst r. now apply Hr.
Qed.

(** ** The toggle and the rest of the list (lines 76-91, 129-131) *)

(** X2. A toggle changes the completed-today status of the toggled id
    only: a task of another id keeps its status, whatever render the
    handler closes over. *)
Theorem toggle_keeps_other_tasks
    (render : DailyTaskTick) (tid x : string) (c : DailyTaskTick) :
  x <> tid ->
  isCompletedToday x (handleToggleCompletion render tid c)
  = isCompletedToday x c.
Proof.
  intros Hne. unfold isCompletedToday. rewrite toggle_keeps_date.
  unfold handleToggleCompletion.
  destruct (existsb (is_record_of tid _) (completions render)); simpl.
  - apply eq_true_iff_eq. rewrite !some_record_iff, filter_In.
    split; [tauto|]. intros H. split; [assumption|].
    apply negb_true_iff, not_true_is_false. intros Hr.
    apply is_record_of_true in Hr. injection Hr as Hr. now apply Hne.
  - rewrite existsb_app. simpl. unfold is_record_of at 2. simpl.
    apply String.eqb_neq in Hne. rewrite String.eqb_sym in Hne.
    rewrite Hne. simpl. now rewrite orb_false_r.
Qed.

Lemma toggle_keeps_other_tasks_witness :
  "8" <> "7" /\
  isCompletedToday "8"
    (handleToggleCompletion (editing_state "") "7" (editing_state ""))
  = isCompletedToday "8" (editing_state "").
Proof.
  assert (H : "8" <> "7") by discriminate.
  split; [exact H|].
  apply (toggle_keeps_other_tasks (editing_state "") "7" "8"
           (editing_state "") H).
Defined.

Lemma count_without_record x today l :
  NoDup l -> In x l -> date x = today ->
  S (List.length
       (filter (fun r => date r =? today)
          (filter (fun r => negb (is_record_of (taskId x) today r)) l)))
  = List.length (filter (fun r => date r =? today) l).
Proof.
  intros Hnd Hin Hd. induction Hnd as [|a l Hnin Hnd IH]; [destruct Hin|].
  simpl. destruct Hin as [-> | Hin].
  - assert (Hx : is_record_of (taskId x) today x = true).
    { apply is_record_of_true. destruct x; simpl in *. now subst. }
    rewrite Hx. simpl.
    assert (Hd' : (date x =? today) = true) by now apply String.eqb_eq.
    rewrite Hd'. simpl. f_equal.
    rewrite (filter_all (fun r => negb (is_record_of (taskId x) today r)));
      [reflexivity|].
    intros r Hr. apply negb_true_iff, not_true_is_false.
    intros E. apply is_record_of_true in E. apply Hnin.
    destruct x; simpl in *. now subst.
  - destruct (is_record_of (taskId x) today a) eqn:Ea.
    + exfalso. apply is_record_of_true in Ea. apply Hnin.
      destruct x; simpl in *. now subst.
    + simpl. destruct (date a =? today); simpl; rewrite <- (IH Hin);
        reflexivity.
Qed.

(** X3. A click on a checkbox whose render shows the task as not
    completed raises the completed-today count by one, whatever the
    current completion list holds.  A click on one whose render is of
    the current completion list and shows the task as completed lowers
    the count by one, provided the list holds one record per (task id,
    date) pair. *)
Theorem toggle_moves_count_by_one
    (render : DailyTaskTick) (tid : string) (c : DailyTaskTick) :
  (existsb (is_record_of tid (currentLocalISODate c)) (completions render)
   = false ->
   completedTodayCount (handleToggleCompletion render tid c)
   = S (completedTodayCount c)) /\
  (completions render = completions c ->
   isCompletedToday tid c = true ->
   one_record_per_pair (completions c) ->
   S (completedTodayCount (handleToggleCompletion render tid c))
   = completedTodayCount c).
Proof.
  unfold isCompletedToday, completedTodayCount. split.
  - intros H. rewrite toggle_keeps_date.
    unfold handleToggleCompletion. rewrite H. simpl.
    rewrite filter_app, length_app. simpl.
    rewrite String.eqb_refl. simpl. lia.
  - intros Hr H Hnd. rewrite toggle_keeps_date.
    unfold handleToggleCompletion. rewrite Hr, H. simpl.
    apply some_record_iff in H.
    apply (count_without_record _ _ _ Hnd H). reflexivity.
Qed.

Lemma toggle_moves_count_by_one_witness :
  (existsb (is_record_of "8" (currentLocalISODate (editing_state "")))
           (completions (initial "2024-01-05")) = false /\
   completedTodayCount
     (handleToggleCompletion (initial "2024-01-05") "8" (editing_state ""))
   = 2) /\
  (completions (editing_state "x") = completions (editing_state "") /\
   isCompletedToday "7" (editing_state "") = true /\
   one_record_per_pair (completions (editing_state "")) /\
   S (completedTodayCount
        (handleToggleCompletion (editing_state "x") "7" (editing_state "")))
   = 1).
Proof.
  assert (H7 : one_record_per_pair (completions (editing_state ""))).
  { repeat constructor. simpl. intros []. }
  split.
  - split; [reflexivity|].
    apply (proj1 (toggle_moves_count_by_one (initial "2024-01-05") "8"
                    (editing_state ""))).
    reflexivity.
  - split; [reflexivity|]. split; [reflexivity|]. split; [exact H7|].
    apply (proj2 (toggle_moves_count_by_one (editing_state "x") "7"
                    (editing_state ""))
             eq_refl eq_refl H7).
Defined.

(** X18. Two clicks on the checkbox of a row of the task list give the
    task of that row the completed-today status it had: each click
    runs the handler of the render of the state it acts on. *)
Theorem listed_row_toggle_twice (row : nat) (task : Task) (w w' : World) :
  nth_error (tasks (fst w)) row = Some task ->
  run [OnRow row ChangeCheckbox; OnRow row ChangeCheckbox] w = Some w' ->
  isCompletedToday (id task) (fst w') = isCompletedToday (id task) (fst w).
Proof.
  intros Hrow Hrun. simpl in Hrun. unfold step in Hrun. simpl in Hrun.
  unfold rows in Hrun. rewrite nth_error_map, Hrow in Hrun. simpl in Hrun.
  rewrite nth_error_map in Hrun.
  rewrite (proj1 (toggle_keeps_tasks _ _ _)), Hrow in Hrun. simpl in Hrun.
  injection Hrun as <-. simpl.
  rewrite !toggle_flips. apply negb_involutive.
Qed.

Lemma listed_row_toggle_twice_witness :
  nth_error (tasks (fst ticked_session)) 0 = Some workout /\
  run [OnRow 0 ChangeCheckbox; OnRow 0 ChangeCheckbox] ticked_session
  = Some ticked_session /\
  isCompletedToday (id workout) (fst ticked_session)
  = isCompletedToday (id workout) (fst ticked_session).
Proof.
  assert (Hrow : nth_error (tasks (fst ticked_session)) 0 = Some workout)
    by (vm_compute; reflexivity).
  assert (Hrun : run [OnRow 0 ChangeCheckbox; OnRow 0 ChangeCheckbox]
                     ticked_session = Some ticked_session)
    by (vm_compute; reflexivity).
  split; [exact Hrow|]. split; [exact Hrun|].
  exact (listed_row_toggle_twice 0 workout _ _ Hrow Hrun).
Defined.

(** ** Adding and deleting (lines 62-74, 93-98) *)

(** X4. A submit clears the form input, so a second submit with nothing
    typed in between adds no second task. *)
Theorem second_submit_adds_nothing
    (now now' : Z) (iso iso' : string) (c : DailyTaskTick) :
  handleAddTask now' iso' (handleAddTask now iso c) = handleAddTask now iso c.
Proof.
  unfold handleAddTask at 2 3.
  destruct (trim (newTaskTitle c) =? "") eqn:E.
  - unfold handleAddTask. now rewrite E.
  - reflexivity.
Qed.

Lemma unique_ids_same_id ts t t' :
  unique_ids ts -> In t ts -> In t' ts -> id t = id t' -> t = t'.
Proof.
  unfold unique_ids. induction ts as [|a ts IH]; simpl; [intros _ []|].
  intros Hnd Ht Ht' Hid. apply NoDup_cons_iff in Hnd as [Hnin Hnd].
  destruct Ht as [-> | Ht], Ht' as [-> | Ht']; trivial.
  - exfalso. apply Hnin. rewrite Hid. now apply in_map.
  - exfalso. apply Hnin. rewrite <- Hid. now apply in_map.
  - now apply IH.
Qed.

Lemma delete_one_of_unique ts task :
  NoDup (map id ts) -> In task ts ->
  S (List.length (filter (fun t => negb (id t =? id task)) ts))
  = List.length ts.
Proof.
  induction ts as [|a ts IH]; simpl; [intros _ []|].
  intros Hnd Hin. apply NoDup_cons_iff in Hnd as [Hnin Hnd].
  destruct Hin as [-> | Hin].
  - rewrite String.eqb_refl. simpl. f_equal. f_equal.
    apply filter_all. intros t Ht. apply negb_true_iff, String.eqb_neq.
    intros E. apply Hnin. rewrite <- E. now apply in_map.
  - destruct (String.eqb_spec (id a) (id task)) as [E | E]; simpl.
    + exfalso. apply Hnin. rewrite E. now apply in_map.
    + f_equal. now apply IH.
Qed.

(** X5. When the task ids are pairwise distinct, a confirmed delete of
    a listed task removes that task and no other: the total drops by
    one and every other task stays. *)
Theorem delete_removes_one_task (task : Task) (c : DailyTaskTick) :
  unique_ids (tasks c) ->
  In task (tasks c) ->
  let c' := handleDeleteTask true (id task) c in
  S (totalTasksCount c') = totalTasksCount c /\
  ~ In task (tasks c') /\
  (forall t, In t (tasks c) -> t <> task -> In t (tasks c')).
Proof.
  intros Hu Hin. simpl. unfold totalTasksCount. simpl.
  split; [now apply delete_one_of_unique|]. split.
  - intros H. apply filter_In in H as [_ H].
    now rewrite String.eqb_refl in H.
  - intros t Ht Hne. apply filter_In. split; [assumption|].
    apply negb_true_iff, String.eqb_neq. intros E. apply Hne.
    now apply (unique_ids_same_id (tasks c)).
Qed.

Lemma delete_removes_one_task_witness :
  unique_ids (tasks (editing_state "")) /\
  In {| id := "8"; title := "Read";
        createdAt := "2024-01-05T09:00:00.000Z"; archived := false |}
     (tasks (editing_state "")) /\
  S (totalTasksCount (handleDeleteTask true "8" (editing_state ""))) = 2.
Proof.
  assert (Hu : unique_ids (tasks (editing_state ""))).
  { unfold unique_ids. simpl. repeat constructor; simpl.
    - intros [H | []]. discriminate H.
    - intros []. }
  assert (Hin : In {| id := "8"; title := "Read";
                      createdAt := "2024-01-05T09:00:00.000Z";
                      archived := false |}
                   (tasks (editing_state ""))).
  { simpl. right. left. reflexivity. }
  split; [exact Hu|]. split; [exact Hin|].
  apply (proj1 (delete_removes_one_task _ (editing_state "") Hu Hin)).
Defined.

(** ** Write-through and reload (lines 30-60) *)

(** X6. No event changes the session date or the stored last-completion
    date: after any script of events both are what they were. *)
Theorem session_date_is_frozen (evs : list Event) (w w' : World) :
  run evs w = Some w' ->
  currentLocalISODate (fst w') = currentLocalISODate (fst w) /\
  dailyTaskTick_lastCompletionDate (snd w')
  = dailyTaskTick_lastCompletionDate (snd w).
Proof.
  revert w. induction evs as [|ev rest IH]; simpl; intros w H.
  - now injection H as <-.
  - unfold step in H.
    destruct (dispatch ev (fst w)) as [c1|] eqn:E; [|discriminate].
    destruct (IH _ H) as [Hd Hs]. rewrite Hd, Hs. simpl.
    split; [|reflexivity]. exact (dispatch_keeps_date _ _ _ E).
Qed.

Lemma session_date_is_frozen_witness :
  run [ChangeNewTaskTitle "Workout";
       SubmitAdd 1000 "2024-01-05T08:00:00.000Z";
       OnRow 0 ChangeCheckbox; ChangeNewTaskTitle " Read "]
      (mount day1 freshStorage)
  = Some ticked_session /\
  currentLocalISODate (fst ticked_session)
  = currentLocalISODate (fst (mount day1 freshStorage)).
Proof.
  assert (H : run [ChangeNewTaskTitle "Workout";
                   SubmitAdd 1000 "2024-01-05T08:00:00.000Z";
                   OnRow 0 ChangeCheckbox; ChangeNewTaskTitle " Read "]
                  (mount day1 freshStorage)
              = Some ticked_session) by (vm_compute; reflexivity).
  split; [exact H|].
  apply (proj1 (session_date_is_frozen _ _ _ H)).
Defined.

(** X7. In every reachable world the three storage entries hold the
    task list, the completion list and the session date of the state. *)
Theorem storage_mirrors_state (w : World) :
  reachable w -> mirrored w.
Proof.
  intros Hw. now apply reachable_mirrored.
Qed.

Lemma storage_mirrors_state_witness :
  reachable ticked_session /\ mirrored ticked_session.
Proof.
  assert (Hr : reachable ticked_session)
    by (apply run_from_fresh_reachable; reflexivity).
  split; [exact Hr|]. apply (storage_mirrors_state _ Hr).
Defined.

(** X8. Reloading a reachable world brings the task list back as it
    was, on any day.  The completion list comes back as it was when the
    day of the reload is the session date, and empty otherwise.  The
    form input and the edit mode start afresh. *)
Theorem reload_restores (d : LocalDate) (w : World) :
  reachable w ->
  let c' := fst (mount d (snd w)) in
  tasks c' = tasks (fst w) /\
  (todayLocalISO d = currentLocalISODate (fst w) ->
   completions c' = completions (fst w)) /\
  (todayLocalISO d <> currentLocalISODate (fst w) ->
   completions c' = [] /\ completedTodayCount c' = 0) /\
  currentLocalISODate c' = todayLocalISO d /\
  newTaskTitle c' = "" /\
  editingTaskId c' = None /\
  editingTaskTitle c' = "".
Proof.
  intros Hw. pose proof (reachable_mirrored w Hw) as Hm.
  pose proof (reload_completions d w Hm) as Hcs.
  destruct Hm as (Ht & Hc & Hd). simpl.
  split; [now rewrite mount_state, loadEffect_tasks, Ht|].
  split; [|split].
  - intros E. rewrite Hcs, E. now rewrite String.eqb_refl.
  - intros E. assert (E' : (currentLocalISODate (fst w) =? todayLocalISO d) = false).
    { apply String.eqb_neq. congruence. }
    unfold completedTodayCount. rewrite Hcs, E'. now split.
  - rewrite mount_state. unfold loadEffect.
    destruct (dailyTaskTick_tasks (snd w));
      destruct (if same_date _ _ then _ else _); simpl; auto.
Qed.

Lemma reload_restores_witness :
  reachable ticked_session /\
  (todayLocalISO day1 = currentLocalISODate (fst ticked_session) /\
   completions (fst (mount day1 (snd ticked_session)))
   = completions (fst ticked_session)) /\
  (todayLocalISO day2 <> currentLocalISODate (fst ticked_session) /\
   completions (fst (mount day2 (snd ticked_session))) = []).
Proof.
  assert (Hr : reachable ticked_session)
    by (apply run_from_fresh_reachable; reflexivity).
  assert (H1 : todayLocalISO day1 = currentLocalISODate (fst ticked_session))
    by (vm_compute; reflexivity).
  assert (H2 : todayLocalISO day2 <> currentLocalISODate (fst ticked_session))
    by (vm_compute; discriminate).
  split; [exact Hr|]. split.
  - split; [exact H1|].
    apply (proj1 (proj2 (reload_restores day1 ticked_session Hr)) H1).
  - split; [exact H2|].
    apply (proj1 (proj2 (proj2 (reload_restores day2 ticked_session Hr))) H2).
Defined.

(** ** Task ids (lines 66-72, 95, 108-110) *)

Lemma filter_unique_ids p ts :
  unique_ids ts -> unique_ids (filter p ts).
Proof.
  unfold unique_ids. induction ts as [|a ts IH]; simpl; [trivial|].
  intros Hnd. apply NoDup_cons_iff in Hnd as [Hnin Hnd].
  destruct (p a); simpl; [|now apply IH].
  constructor; [|now apply IH].
  intros Hin. apply Hnin. apply in_map_iff in Hin as [t [E Ht]].
  apply filter_In in Ht as [Ht _]. rewrite <- E. now apply in_map.
Qed.

Lemma deliver_unique_ids r e c c' :
  unique_ids (tasks c) -> deliver r e c = Some c' -> unique_ids (tasks c').
Proof.
  intros Hu H. deliver_cases H; simpl; try assumption.
  - now rewrite (proj1 (toggle_keeps_tasks _ _ c)).
  - unfold unique_ids. now rewrite saveEdit_keeps_ids.
  - unfold unique_ids.
    destruct (key0 =? "Enter"), (key0 =? "Escape"); simpl;
      rewrite ?saveEdit_keeps_ids; assumption.
  - unfold handleDeleteTask. destruct confirm; simpl; [|assumption].
    now apply filter_unique_ids.
Qed.

Lemma dispatch_unique_ids ev c c' :
  unique_ids (tasks c) -> fresh_clock ev c ->
  dispatch ev c = Some c' -> unique_ids (tasks c').
Proof.
  intros Hu Hfresh H. dispatch_cases H.
  - now injection H as <-.
  - injection H as <-. unfold handleAddTask.
    destruct (_ =? _); [assumption|]. simpl.
    unfold unique_ids. rewrite map_app. simpl.
    apply NoDup_app; [assumption | repeat constructor; intros [] |].
    intros x Hx [<- | []]. now apply Hfresh.
  - injection H as <-. unfold handleResetTodayCompletions.
    now destruct confirm.
  - eapply deliver_unique_ids; eassumption.
  - eapply deliver_unique_ids; eassumption.
Qed.

(** X15. Pairwise distinct task ids are kept by every event other than
    a submit, and by a submit whose clock reading is the id of no
    listed task. *)
Theorem unique_ids_kept (ev : Event) (c c' : DailyTaskTick) :
  unique_ids (tasks c) ->
  (forall now iso, ev = SubmitAdd now iso ->
                   ~ In (toString now) (map id (tasks c))) ->
  dispatch ev c = Some c' ->
  unique_ids (tasks c').
Proof.
  intros Hu Hfresh. apply dispatch_unique_ids; [assumption|].
  destruct ev; simpl; trivial. now apply (Hfresh now iso).
Qed.

Lemma unique_ids_kept_witness :
  unique_ids (tasks (editing_state "")) /\
  ~ In (toString 9) (map id (tasks (editing_state ""))) /\
  dispatch (SubmitAdd 9 "2024-01-05T10:00:00.000Z")
           (setNewTaskTitle "Walk" (editing_state ""))
  = Some (handleAddTask 9 "2024-01-05T10:00:00.000Z"
            (setNewTaskTitle "Walk" (editing_state ""))) /\
  unique_ids (tasks (handleAddTask 9 "2024-01-05T10:00:00.000Z"
                       (setNewTaskTitle "Walk" (editing_state "")))).
Proof.
  assert (Hu : unique_ids (tasks (editing_state ""))).
  { unfold unique_ids. simpl. repeat constructor; simpl.
    - intros [H | []]. discriminate H.
    - intros []. }
  assert (Hf : ~ In (toString 9) (map id (tasks (editing_state "")))).
  { simpl. intros [H | [H | []]]; discriminate H. }
  split; [exact Hu|]. split; [exact Hf|]. split; [reflexivity|].
  apply (unique_ids_kept (SubmitAdd 9 "2024-01-05T10:00:00.000Z")
           (setNewTaskTitle "Walk" (editing_state ""))).
  - exact Hu.
  - intros now iso E. injection E as <- _. exact Hf.
  - reflexivity.
Defined.

(** ** Worlds reached without a collision of ids (lines 66-67, 185) *)

Lemma shadowed_sub l r : In r (shadowed l) -> In r l.
Proof.
  induction l as [|a l IH]; simpl; [trivial|].
  destruct (existsb _ l); simpl; intuition.
Qed.

Lemma shadowed_unique l : NoDup (map key l) -> shadowed l = [].
Proof.
  induction l as [|a l IH]; simpl; [reflexivity|].
  intros Hnd. apply NoDup_cons_iff in Hnd as [Hnin Hnd].
  destruct (existsb (fun r' => key r' =? key a) l) eqn:E; [|now apply IH].
  exfalso. apply existsb_exists in E as [r' [Hin Hk]].
  apply String.eqb_eq in Hk. apply Hnin. rewrite <- Hk. now apply in_map.
Qed.

Lemma orphaned_unique l new : NoDup (map key l) -> orphaned l new = [].
Proof.
  revert new. induction l as [|o l IH]; intros [|n new] Hnd; simpl;
    try reflexivity.
  destruct (key o =? id n).
  - apply IH. now apply NoDup_cons_iff in Hnd.
  - now apply (shadowed_unique (o :: l)).
Qed.

Lemma rows_keys c : map key (rows c) = map id (tasks c).
Proof. unfold rows. rewrite map_map. reflexivity. Qed.

(** While no submit repeats a listed id, no row is left behind, the
    ids stay distinct, and the completion list has one record per pair
    and only records of listed tasks. *)
Lemma collision_free_invariant orphans w :
  reachable_by fresh_clock orphans w ->
  orphans = [] /\
  unique_ids (tasks (fst w)) /\
  one_record_per_pair (completions (fst w)) /\
  no_dangling (tasks (fst w)) (completions (fst w)).
Proof.
  induction 1 as [d | os ev w w' Hr IH Hp Ha Hstep | os d w Hr IH].
  - split; [reflexivity|]. destruct (mount_fresh d) as [-> ->].
    repeat split; [constructor | constructor | intros r []].
  - destruct IH as (-> & Hu & Hn & Hd).
    assert (Hlive : is_live ev = true) by (destruct ev; trivial; destruct Hp).
    unfold step in Hstep.
    destruct (dispatch ev (fst w)) as [c'|] eqn:E; [|discriminate].
    injection Hstep as <-. simpl. split; [|split; [|split]].
    + unfold orphans_after. destruct (tasks c'); [reflexivity|]. simpl.
      apply orphaned_unique. now rewrite rows_keys.
    + eapply dispatch_unique_ids; eassumption.
    + eapply dispatch_live_one_record_per_pair; eassumption.
    + eapply dispatch_live_no_dangling; eassumption.
  - destruct IH as (_ & Hu & Hn & Hd).
    pose proof (reachable_by_mirrored _ _ _ Hr) as Hm.
    split; [reflexivity|].
    destruct (reload_lists d w Hm) as [Ht [Hc | Hc]]; rewrite Ht, Hc.
    + auto.
    + repeat split; [assumption | constructor | intros r []].
Qed.

(** X17. Every world reached while no submit's clock reading is the id
    of a listed task is a reachable world in which the completion list
    holds at most one record per (task id, date) pair and every record
    names the id of a listed task. *)
Theorem completions_sound_without_collision (w : World) :
  reachable_without_collision w ->
  reachable w /\
  one_record_per_pair (completions (fst w)) /\
  no_dangling (tasks (fst w)) (completions (fst w)).
Proof.
  intros [os Hr]. split.
  - exists os. now apply (reachable_by_any fresh_clock).
  - now apply collision_free_invariant in Hr.
Qed.

Lemma ticked_session_without_collision :
  reachable_without_collision ticked_session.
Proof.
  apply (run_from_fresh_deliverable fresh_clock). vm_compute.
  repeat split; auto.
Qed.

Lemma completions_sound_without_collision_witness :
  reachable_without_collision ticked_session /\
  one_record_per_pair (completions (fst ticked_session)).
Proof.
  split; [exact ticked_session_without_collision|].
  apply (proj1 (proj2 (completions_sound_without_collision _
                         ticked_session_without_collision))).
Defined.

(** ** The header counters (lines 129-132, 163) *)

(** X9. In every world reached while no submit's clock reading is the
    id of a listed task, the completed-today count is at most the
    number of tasks. *)
Theorem completed_at_most_total (w : World) :
  reachable_without_collision w ->
  completedTodayCount (fst w) <= totalTasksCount (fst w).
Proof.
  intros [os Hr]. apply collision_free_invariant in Hr.
  destruct Hr as (_ & _ & Hnd & Hdang).
  unfold completedTodayCount, totalTasksCount.
  set (today := currentLocalISODate (fst w)).
  set (T := filter (fun r => date r =? today) (completions (fst w))).
  rewrite <- (length_map taskId T), <- (length_map id (tasks (fst w))).
  apply NoDup_incl_length.
  - apply NoDup_map_NoDup_ForallPairs; [|now apply NoDup_filter].
    intros a b Ha Hb E. apply filter_In in Ha as [_ Ha], Hb as [_ Hb].
    apply String.eqb_eq in Ha, Hb. destruct a, b; simpl in *. congruence.
  - intros x Hx. apply in_map_iff in Hx as [r [<- Hr]].
    apply filter_In in Hr as [Hr _].
    destruct (Hdang r Hr) as [t [Ht <-]]. now apply in_map.
Qed.

Lemma completed_at_most_total_witness :
  reachable_without_collision ticked_session /\
  completedTodayCount (fst ticked_session)
  <= totalTasksCount (fst ticked_session).
Proof.
  split; [exact ticked_session_without_collision|].
  apply (completed_at_most_total _ ticked_session_without_collision).
Defined.

(** ** Titles (lines 64-68, 105-111) *)

Lemma reverse_involutive s : reverse (reverse s) = s.
Proof.
  unfold reverse.
  now rewrite list_ascii_of_string_of_list_ascii, rev_involutive,
    string_of_list_ascii_of_string.
Qed.

Lemma trimStart_idempotent s : trimStart (trimStart s) = trimStart s.
Proof.
  induction s as [|c r IH]; simpl; [reflexivity|].
  destruct (isWhiteSpace c) eqn:E; [exact IH|]. simpl. now rewrite E.
Qed.

Lemma trimStart_head s :
  trimStart s = "" \/
  exists c r, trimStart s = String c r /\ isWhiteSpace c = false.
Proof.
  induction s as [|c r IH]; simpl; [now left|].
  destruct (isWhiteSpace c) eqn:E; [exact IH|]. right. eauto.
Qed.

Lemma trimStart_keeps_last l c :
  isWhiteSpace c = false ->
  exists l', trimStart (string_of_list_ascii (l ++ [c]))
             = string_of_list_ascii (l' ++ [c]).
Proof.
  intros Hc. induction l as [|a l IH]; simpl.
  - rewrite Hc. now exists [].
  - destruct (isWhiteSpace a); [exact IH|]. now exists (a :: l).
Qed.

Lemma trimEnd_keeps_head c r :
  isWhiteSpace c = false -> exists r', trimEnd (String c r) = String c r'.
Proof.
  intros Hc. unfold trimEnd, reverse at 2. simpl.
  destruct (trimStart_keeps_last (rev (list_ascii_of_string r)) c Hc)
    as [l' E].
  rewrite E. unfold reverse.
  rewrite list_ascii_of_string_of_list_ascii, rev_app_distr. simpl. eauto.
Qed.

Lemma trimEnd_idempotent s : trimEnd (trimEnd s) = trimEnd s.
Proof.
  unfold trimEnd. now rewrite reverse_involutive, trimStart_idempotent.
Qed.

(** Trimming what is already trimmed changes nothing. *)
Lemma trim_idempotent s : trim (trim s) = trim s.
Proof.
  unfold trim. destruct (trimStart_head s) as [E | (c & r & E & Hc)];
    rewrite E.
  - reflexivity.
  - destruct (trimEnd_keeps_head c r Hc) as [r' E'].
    rewrite E' at 1. simpl. rewrite Hc, <- E'. apply trimEnd_idempotent.
Qed.

Lemma add_titles (P : string -> Prop) now iso c :
  (forall s, trim s <> "" -> P (trim s)) ->
  (forall task, In task (tasks c) -> P (title task)) ->
  forall task, In task (tasks (handleAddTask now iso c)) -> P (title task).
Proof.
  intros HP H task. unfold handleAddTask.
  destruct (String.eqb_spec (trim (newTaskTitle c)) "") as [E | E];
    [apply H|]. simpl.
  intros Hin. apply in_app_or in Hin as [Hin | [<- | []]]; [now apply H|].
  now apply HP.
Qed.

Lemma saveEdit_titles (P : string -> Prop) render tid c :
  (forall s, trim s <> "" -> P (trim s)) ->
  (forall task, In task (tasks c) -> P (title task)) ->
  forall task, In task (tasks (handleSaveEdit render tid c)) -> P (title task).
Proof.
  intros HP H task. unfold handleSaveEdit.
  destruct (String.eqb_spec (trim (editingTaskTitle render)) "") as [E | E];
    [apply H|]. simpl.
  intros Hin. apply in_map_iff in Hin as [t [<- Hin]].
  destruct (id t =? tid); [now apply HP | now apply H].
Qed.

Lemma deliver_titles (P : string -> Prop) r e c c' :
  (forall s, trim s <> "" -> P (trim s)) ->
  (forall task, In task (tasks c) -> P (title task)) ->
  deliver r e c = Some c' ->
  forall task, In task (tasks c') -> P (title task).
Proof.
  intros HP Hinv H. deliver_cases H; simpl; try assumption.
  - now rewrite (proj1 (toggle_keeps_tasks _ _ c)).
  - now apply saveEdit_titles.
  - destruct (key0 =? "Enter"), (key0 =? "Escape"); simpl;
      try assumption; now apply saveEdit_titles.
  - unfold handleDeleteTask. destruct confirm; simpl; [|assumption].
    intros task Hin. apply filter_In in Hin as [Hin _]. now apply Hinv.
Qed.

Lemma dispatch_titles (P : string -> Prop) ev c c' :
  (forall s, trim s <> "" -> P (trim s)) ->
  (forall task, In task (tasks c) -> P (title task)) ->
  dispatch ev c = Some c' ->
  forall task, In task (tasks c') -> P (title task).
Proof.
  intros HP Hinv H. dispatch_cases H.
  - now injection H as <-.
  - injection H as <-. now apply add_titles.
  - injection H as <-. unfold handleResetTodayCompletions.
    now destruct confirm.
  - eapply deliver_titles; eassumption.
  - eapply deliver_titles; eassumption.
Qed.

Lemma reachable_titles (w : World) :
  reachable w ->
  forall task, In task (tasks (fst w)) ->
    title task <> "" /\ trim (title task) = title task.
Proof.
  intros [os Hr].
  enough (H : mirrored w /\
              forall task, In task (tasks (fst w)) ->
                title task <> "" /\ trim (title task) = title task)
    by apply H.
  revert os w Hr. apply reachable_by_ind_world.
  - intros d. split; [apply mount_mirrored|].
    destruct (mount_fresh d) as [-> _]. intros task [].
  - intros ev w w' [Hm IH] _ Hs.
    split; [eapply step_mirrored; eassumption|].
    unfold step in Hs.
    destruct (dispatch ev (fst w)) as [c'|] eqn:E; [|discriminate].
    injection Hs as <-. simpl.
    apply (dispatch_titles (fun s => s <> "" /\ trim s = s) ev (fst w));
      trivial.
    intros s Hs. split; [assumption | apply trim_idempotent].
  - intros d w [Hm IH]. split; [apply mount_mirrored|].
    destruct (reload_lists d w Hm) as [-> _]. exact IH.
Qed.

(** X10. In every reachable world each task title is non-empty and
    carries no leading or trailing white space: trimming it gives it
    back. *)
Theorem titles_are_trimmed (w : World) :
  reachable w ->
  forall task, In task (tasks (fst w)) ->
    title task <> "" /\ trim (title task) = title task.
Proof.
  intros Hw. now apply reachable_titles.
Qed.

Lemma titles_are_trimmed_witness :
  reachable collision_session /\
  In {| id := "1000"; title := "Read";
        createdAt := "2024-01-05T08:00:00.000Z"; archived := false |}
     (tasks (fst collision_session)) /\
  trim "Read" = "Read".
Proof.
  assert (Hr : reachable collision_session)
    by (apply run_from_fresh_reachable; reflexivity).
  assert (Hin : In {| id := "1000"; title := "Read";
                      createdAt := "2024-01-05T08:00:00.000Z";
                      archived := false |}
                   (tasks (fst collision_session))).
  { vm_compute. right. left. reflexivity. }
  split; [exact Hr|]. split; [exact Hin|].
  apply (proj2 (titles_are_trimmed collision_session Hr _ Hin)).
Defined.

(** X11. Opening the edit field of a row and leaving it without typing
    changes no task and no completion record and ends the edit mode, in
    a reachable world whose task ids are pairwise distinct. *)
Theorem untouched_edit_changes_nothing (row : nat) (w w' : World) :
  reachable w ->
  unique_ids (tasks (fst w)) ->
  run [OnRow row ClickEdit; OnRow row BlurEditInput] w = Some w' ->
  tasks (fst w') = tasks (fst w) /\
  completions (fst w') = completions (fst w) /\
  editingTaskId (fst w') = None /\
  editingTaskTitle (fst w') = "".
Proof.
  intros Hw Hu Hrun. simpl in Hrun. unfold step in Hrun. simpl in Hrun.
  unfold rows in Hrun. rewrite nth_error_map in Hrun.
  destruct (nth_error (tasks (fst w)) row) as [task|] eqn:Hrow;
    [|discriminate].
  simpl in Hrun. unfold deliver in Hrun. simpl in Hrun.
  destruct (is_editing (fst w) task); [discriminate|]. simpl in Hrun.
  rewrite nth_error_map, Hrow in Hrun. simpl in Hrun.
  unfold is_editing in Hrun. simpl in Hrun.
  rewrite String.eqb_refl in Hrun. injection Hrun as <-. simpl.
  assert (Hin : In task (tasks (fst w))) by (eapply nth_error_In; eassumption).
  destruct (reachable_titles w Hw task Hin) as [Hne Htr].
  unfold handleSaveEdit, handleEditTask. simpl. rewrite Htr.
  apply String.eqb_neq in Hne. rewrite Hne. simpl.
  split; [|auto].
  rewrite <- (map_id (tasks (fst w))) at 2. apply map_ext_in.
  intros t Ht. destruct (String.eqb_spec (id t) (id task)) as [E | E];
    [|reflexivity].
  rewrite (unique_ids_same_id _ _ _ Hu Ht Hin E). now destruct task.
Qed.

Lemma untouched_edit_changes_nothing_witness :
  reachable ticked_session /\
  unique_ids (tasks (fst ticked_session)) /\
  run [OnRow 0 ClickEdit; OnRow 0 BlurEditInput] ticked_session
  = Some ticked_session /\
  editingTaskId (fst ticked_session) = None.
Proof.
  assert (Hr : reachable ticked_session)
    by (apply run_from_fresh_reachable; reflexivity).
  assert (Hu : unique_ids (tasks (fst ticked_session))).
  { unfold unique_ids.
    replace (map id (tasks (fst ticked_session))) with ["1000"]
      by (vm_compute; reflexivity).
    repeat constructor. simpl. intros []. }
  assert (Hrun : run [OnRow 0 ClickEdit; OnRow 0 BlurEditInput] ticked_session
                 = Some ticked_session) by (vm_compute; reflexivity).
  split; [exact Hr|]. split; [exact Hu|]. split; [exact Hrun|].
  apply (proj1 (proj2 (proj2
           (untouched_edit_changes_nothing 0 _ _ Hr Hu Hrun)))).
Defined.

(** ** The date oracle (lines 3-10) *)

Lemma toString_injective a b : toString a = toString b -> a = b.
Proof.
  unfold toString. intros E. apply DecimalZ.to_int_inj.
  assert (Hn : forall z, Z.to_int z <> Decimal.Pos Decimal.Nil /\
                         Z.to_int z <> Decimal.Neg Decimal.Nil).
  { intros [|p|p]; simpl; split; try discriminate;
      intros H; injection H as H;
      now apply (DecimalPos.Unsigned.to_uint_nonnil p). }
  assert (Hs : forall z, NilZero.int_of_string
                           (NilZero.string_of_int (Z.to_int z))
                         = Some (Z.to_int z)).
  { intros z. apply NilZero.isi; apply Hn. }
  pose proof (Hs a) as Ha. rewrite E, Hs in Ha. now injection Ha.
Qed.

Lemma in_below n z : (0 <= z < Z.of_nat n)%Z -> In z (below n).
Proof.
  intros H. unfold below. rewrite <- (Z2Nat.id z) by lia.
  apply in_map, in_seq. lia.
Qed.

Lemma append_length (a b : string) :
  String.length (a ++ b)%string = String.length a + String.length b.
Proof. induction a as [|c a IH]; simpl; [reflexivity | now rewrite IH]. Qed.

Lemma append_injective (a a' b b' : string) :
  String.length a = String.length a' ->
  (a ++ b)%string = (a' ++ b')%string -> a = a' /\ b = b'.
Proof.
  revert a'. induction a as [|c a IH]; intros [|c' a']; simpl;
    try discriminate; [now split|].
  intros Hl E. injection Hl as Hl. injection E as -> E.
  destruct (IH a' Hl E) as [-> ->]. now split.
Qed.

(** Two-digit fields, checked on every value a field can take. *)
Lemma field_length z :
  (0 <= z < 100)%Z -> String.length (padStart2 (toString z)) = 2.
Proof.
  intros H. apply (in_below 100) in H.
  assert (Hall : forallb
                   (fun z => Nat.eqb (String.length (padStart2 (toString z))) 2)
                   (below 100) = true)
    by (vm_compute; reflexivity).
  rewrite forallb_forall in Hall. apply Nat.eqb_eq. now apply Hall.
Qed.

Lemma field_injective a b :
  (0 <= a < 100)%Z -> (0 <= b < 100)%Z ->
  padStart2 (toString a) = padStart2 (toString b) -> a = b.
Proof.
  intros Ha Hb E. apply (in_below 100) in Ha, Hb.
  assert (Hall : forallb
                   (fun a =>
                      forallb
                        (fun b =>
                           implb (padStart2 (toString a)
                                  =? padStart2 (toString b))%string
                                 (a =? b)%Z)
                        (below 100))
                   (below 100) = true)
    by (vm_compute; reflexivity).
  rewrite forallb_forall in Hall. specialize (Hall a Ha).
  rewrite forallb_forall in Hall. specialize (Hall b Hb).
  apply String.eqb_eq in E. rewrite E in Hall. simpl in Hall.
  now apply Z.eqb_eq.
Qed.

Lemma year_length y :
  (1000 <= y <= 9999)%Z -> String.length (toString y) = 4.
Proof.
  intros H.
  assert (Hin : In (y - 1000)%Z (below (Z.to_nat 9000))).
  { apply in_below. rewrite Z2Nat.id; lia. }
  assert (Hall : forallb
                   (fun z => Nat.eqb (String.length (toString (z + 1000))) 4)
                   (below (Z.to_nat 9000)) = true)
    by (vm_compute; reflexivity).
  rewrite forallb_forall in Hall. specialize (Hall _ Hin).
  apply Nat.eqb_eq in Hall.
  now replace (y - 1000 + 1000)%Z with y in Hall by lia.
Qed.

(** X12. Two calendar days give the same session date only if they are
    the same day: the year, the month and the day of the month can be
    read back from the string. *)
Theorem todayLocalISO_injective (d d' : LocalDate) :
  calendar_day d -> calendar_day d' ->
  todayLocalISO d = todayLocalISO d' -> d = d'.
Proof.
  intros [Hm Hd] [Hm' Hd'] E. unfold todayLocalISO in E.
  assert (Lm : String.length (padStart2 (toString (getMonth d + 1))) = 2)
    by (apply field_length; lia).
  assert (Lm' : String.length (padStart2 (toString (getMonth d' + 1))) = 2)
    by (apply field_length; lia).
  assert (Ld : String.length (padStart2 (toString (getDate d))) = 2)
    by (apply field_length; lia).
  assert (Ld' : String.length (padStart2 (toString (getDate d'))) = 2)
    by (apply field_length; lia).
  assert (Ly : String.length (toString (getFullYear d))
               = String.length (toString (getFullYear d'))).
  { apply (f_equal String.length) in E.
    rewrite !append_length in E. simpl in E. lia. }
  apply append_injective in E as [Ey E]; [|exact Ly].
  simpl in E. injection E as E.
  apply append_injective in E as [Em E]; [|congruence].
  simpl in E. injection E as E.
  apply toString_injective in Ey.
  apply field_injective in Em; [|lia|lia].
  apply field_injective in E; [|lia|lia].
  destruct d, d'; simpl in *. f_equal; lia.
Qed.

Lemma todayLocalISO_injective_witness :
  calendar_day day1 /\
  todayLocalISO day1 = todayLocalISO day1 /\
  day1 = day1.
Proof.
  assert (H1 : calendar_day day1) by (unfold calendar_day; simpl; lia).
  split; [exact H1|]. split; [reflexivity|].
  apply (todayLocalISO_injective day1 day1 H1 H1). reflexivity.
Defined.

(** X13. For a four-digit year the session date has the form
    YYYY-MM-DD: ten characters, with a hyphen after the year and a
    hyphen after the month. *)
Theorem todayLocalISO_shape (d : LocalDate) :
  (1000 <= getFullYear d <= 9999)%Z ->
  calendar_day d ->
  String.length (todayLocalISO d) = 10 /\
  String.get 4 (todayLocalISO d) = Some "-"%char /\
  String.get 7 (todayLocalISO d) = Some "-"%char /\
  String.substring 0 4 (todayLocalISO d) = toString (getFullYear d) /\
  String.substring 5 2 (todayLocalISO d)
  = padStart2 (toString (getMonth d + 1)) /\
  String.substring 8 2 (todayLocalISO d) = padStart2 (toString (getDate d)).
Proof.
  intros Hy [Hm Hd]. unfold todayLocalISO.
  pose proof (year_length _ Hy) as Ly.
  assert (Lm : String.length (padStart2 (toString (getMonth d + 1))) = 2)
    by (apply field_length; lia).
  assert (Ld : String.length (padStart2 (toString (getDate d))) = 2)
    by (apply field_length; lia).
  destruct (toString (getFullYear d)) as [|y1 [|y2 [|y3 [|y4 [|? ?]]]]];
    try discriminate Ly.
  destruct (padStart2 (toString (getMonth d + 1))) as [|m1 [|m2 [|? ?]]];
    try discriminate Lm.
  destruct (padStart2 (toString (getDate d))) as [|d1 [|d2 [|? ?]]];
    try discriminate Ld.
  repeat split.
Qed.

Lemma todayLocalISO_shape_witness :
  (1000 <= getFullYear day1 <= 9999)%Z /\ calendar_day day1 /\
  String.length (todayLocalISO day1) = 10.
Proof.
  assert (Hy : (1000 <= getFullYear day1 <= 9999)%Z) by (simpl; lia).
  assert (H1 : calendar_day day1) by (unfold calendar_day; simpl; lia).
  split; [exact Hy|]. split; [exact H1|].
  apply (proj1 (todayLocalISO_shape day1 Hy H1)).
Defined.

(** ** Records and the session date (lines 42-49, 86-89) *)

Lemma deliver_records_of_today r e c c' :
  (forall x, In x (completions c) -> date x = currentLocalISODate c) ->
  deliver r e c = Some c' ->
  forall x, In x (completions c') -> date x = currentLocalISODate c.
Proof.
  intros Hinv H. deliver_cases H; simpl; try assumption.
  - unfold handleToggleCompletion. destruct (existsb _ _); simpl; intros x Hx.
    + apply filter_In in Hx as [Hx _]. now apply Hinv.
    + apply in_app_or in Hx as [Hx | [<- | []]]; [now apply Hinv|reflexivity].
  - now rewrite saveEdit_keeps_completions.
  - destruct (key0 =? "Enter"), (key0 =? "Escape"); simpl;
      rewrite ?saveEdit_keeps_completions; assumption.
  - unfold handleDeleteTask. destruct confirm; simpl; [|assumption].
    intros x Hx. apply filter_In in Hx as [Hx _]. now apply Hinv.
Qed.

Lemma dispatch_records_of_today ev c c' :
  (forall r, In r (completions c) -> date r = currentLocalISODate c) ->
  dispatch ev c = Some c' ->
  forall r, In r (completions c') -> date r = currentLocalISODate c'.
Proof.
  intros Hinv H. rewrite (dispatch_keeps_date _ _ _ H).
  dispatch_cases H.
  - now injection H as <-.
  - injection H as <-. now rewrite add_keeps_completions.
  - injection H as <-. unfold handleResetTodayCompletions.
    destruct confirm; simpl; [|assumption].
    intros r Hr. apply filter_In in Hr as [Hr _]. now apply Hinv.
  - eapply deliver_records_of_today; eassumption.
  - eapply deliver_records_of_today; eassumption.
Qed.

(** X14. In every reachable world every completion record carries the
    session date: no record of another day is kept in memory, and the
    completed-today count is the length of the completion list. *)
Theorem records_are_of_today (w : World) :
  reachable w ->
  (forall r, In r (completions (fst w)) ->
             date r = currentLocalISODate (fst w)) /\
  completedTodayCount (fst w) = List.length (completions (fst w)).
Proof.
  intros [os Hr].
  assert (H : mirrored w /\
              forall r, In r (completions (fst w)) ->
                        date r = currentLocalISODate (fst w)).
  { revert os w Hr. apply reachable_by_ind_world.
    - intros d. split; [apply mount_mirrored|].
      destruct (mount_fresh d) as [_ ->]. intros r [].
    - intros ev w w' [Hm IH] _ Hs.
      split; [eapply step_mirrored; eassumption|].
      unfold step in Hs.
      destruct (dispatch ev (fst w)) as [c'|] eqn:E; [|discriminate].
      injection Hs as <-. simpl.
      eapply dispatch_records_of_today; eassumption.
    - intros d w [Hm IH]. split; [apply mount_mirrored|].
      rewrite (reload_completions d w Hm), mount_date.
      destruct (String.eqb_spec (currentLocalISODate (fst w))
                                (todayLocalISO d)) as [E | E].
      + rewrite <- E. exact IH.
      + intros r []. }
  destruct H as [_ H].
  split; [exact H|]. unfold completedTodayCount.
  rewrite filter_all; [reflexivity|].
  intros r Hr'. apply String.eqb_eq. now apply H.
Qed.

Lemma records_are_of_today_witness :
  reachable duplicate_session /\
  completedTodayCount (fst duplicate_session)
  = List.length (completions (fst duplicate_session)).
Proof.
  assert (Hr : reachable duplicate_session).
  { apply (run_from_fresh_deliverable any_event). vm_compute.
    repeat split; auto. }
  split; [exact Hr|].
  apply (proj2 (records_are_of_today _ Hr)).
Defined.

(** ** Leaving the edit field with Escape (lines 100-119, 193-202) *)

(** X16. Opening the edit field of a row, typing, and pressing Escape
    leaves every task and every completion record as it was and ends
    the edit mode with an empty buffer. *)
Theorem escape_discards_edit (row : nat) (v : string) (w w' : World) :
  run [OnRow row ClickEdit; OnRow row (ChangeEditInput v);
       OnRow row (KeyDownEditInput "Escape")] w
  = Some w' ->
  tasks (fst w') = tasks (fst w) /\
  completions (fst w') = completions (fst w) /\
  editingTaskId (fst w') = None /\
  editingTaskTitle (fst w') = "".
Proof.
  intros Hrun. simpl in Hrun. unfold step in Hrun. simpl in Hrun.
  unfold rows in Hrun. rewrite nth_error_map in Hrun.
  destruct (nth_error (tasks (fst w)) row) as [task|] eqn:Hrow;
    [|discriminate].
  simpl in Hrun. unfold deliver in Hrun. simpl in Hrun.
  destruct (is_editing (fst w) task); [discriminate|]. simpl in Hrun.
  rewrite nth_error_map, Hrow in Hrun. simpl in Hrun.
  unfold is_editing in Hrun. simpl in Hrun.
  rewrite String.eqb_refl in Hrun. simpl in Hrun.
  rewrite nth_error_map, Hrow in Hrun. simpl in Hrun.
  rewrite String.eqb_refl in Hrun. simpl in Hrun.
  injection Hrun as <-. simpl. auto.
Qed.

Lemma escape_discards_edit_witness :
  run [OnRow 0 ClickEdit; OnRow 0 (ChangeEditInput "Run");
       OnRow 0 (KeyDownEditInput "Escape")] ticked_session
  = Some ticked_session /\
  editingTaskTitle (fst ticked_session) = "".
Proof.
  assert (Hrun : run [OnRow 0 ClickEdit; OnRow 0 (ChangeEditInput "Run");
                      OnRow 0 (KeyDownEditInput "Escape")] ticked_session
                 = Some ticked_session) by (vm_compute; reflexivity).
  split; [exact Hrun|].
  apply (proj2 (proj2 (proj2 (escape_discards_edit 0 "Run" _ _ Hrun)))).
Defined.
